(** * The instruction execution engine of agentflow, and the instruction
    classes of [tests/core/instructions/test_advanced.py].

    The classes [SimpleInstruction], [SimpleCompositeInstruction],
    [SimpleParallelInstruction] and [ConditionalInstructionTest] are
    translated from the test module.  Their base classes live in
    [agentflow.core.instructions], whose source is not available: the
    result and status types, [execute] and the iterative instruction are
    modelled from the specification and marked as such. *)

From Stdlib Require Import QArith.QArith_base.
From stdpp Require Import gmap strings list fin_maps.


(** ** Python exceptions

    Only [Exception] and its subclasses are raised by the code below, and
    every handler is [except Exception as e], which catches them all; what
    a handler reads from [e] is [str(e)], the message. *)

Inductive PyException : Type :=
| Exception (message : string)
| ValueError (message : string)
| TypeError (message : string).

Definition str (e : PyException) : string :=
  match e with
  | Exception message | ValueError message | TypeError message => message
  end.

(** A call either returns a value or raises. *)
Inductive Raises (A : Type) : Type :=
| Return (a : A)
| Raise (e : PyException).
Arguments Return {A} a.
Arguments Raise {A} e.

Definition try_except {A : Type} (body : Raises A) (handler : PyException -> Raises A)
  : Raises A :=
  match body with
  | Return a => Return a
  | Raise e => handler e
  end.

(** ** Result and status model *)

(** Modelled from the spec: [InstructionStatus] of
    [agentflow.core.instructions.base] (section 3: the enum [Pending],
    [Running], [Completed], [Failed]). *)
Inductive InstructionStatus : Type := PENDING | RUNNING | COMPLETED | FAILED.

(** Python values held in a context or in result data.  [InstructionResult]
    is modelled from the spec (section 3): [status], [data], [error]; the
    optional, purely observational [metrics] is left out.  [data] is a
    mapping as the annotation [Dict[str, Any]] says, absent ([None]) on a
    failed result, or the list of child results that
    [SimpleCompositeInstruction._execute_impl] returns. *)
#[warnings="-register-all"]
Inductive Value : Type :=
| VNone
| VBool (b : bool)
| VInt (z : Z)
| VStr (s : string)
| VList (l : list Value)
| VDict (d : gmap string Value)
| VResult (r : InstructionResult)
with InstructionResult : Type :=
| mkInstructionResult (status : InstructionStatus) (data : Data) (error : option string)
with Data : Type :=
| NoData
| Mapping (d : gmap string Value)
| Sequence (l : list InstructionResult).

Definition status (r : InstructionResult) : InstructionStatus :=
  match r with mkInstructionResult s _ _ => s end.
Definition data (r : InstructionResult) : Data :=
  match r with mkInstructionResult _ d _ => d end.
Definition error (r : InstructionResult) : option string :=
  match r with mkInstructionResult _ _ e => e end.

(** [result.data] as a value stored inside another container. *)
Definition data_value (d : Data) : Value :=
  match d with
  | NoData => VNone
  | Mapping m => VDict m
  | Sequence l => VList (VResult <$> l)
  end.

(** The context: a [Dict[str, Any]], passed by reference. *)
Abbreviation Context := (gmap string Value).

(** [context.update(other)] for the shapes [result.data] takes.  A mapping is
    merged, its keys winning; [None] is not iterable; a list is read as a
    sequence of key/value pairs, so the empty list changes nothing and a
    list of result objects (plain objects, not sequences) fails on its first
    element, before any key is written. *)
Definition dict_update (context : Context) (other : Data) : Raises Context :=
  match other with
  | Mapping d => Return (d ∪ context)
  | NoData => Raise (TypeError "'NoneType' object is not iterable")
  | Sequence [] => Return context
  | Sequence (_ :: _) =>
      Raise (TypeError "cannot convert dictionary update sequence element #0 to a sequence")
  end.

(** Modelled from the spec: [ValidationResult] of
    [agentflow.core.instructions.base] (section 3); the test module builds it
    with exactly these four fields. *)
Record ValidationResult : Type := {
  is_valid : bool;
  score : Q;
  metrics : gmap string Value;
  violations : list string
}.

(** ** Observation of a run

    What a spy placed on the hooks and on the children would record, in
    order.  The events of a child's own run stay inside the child. *)
Inductive Event : Type :=
| RuleEvaluated (index : nat)
| HookInvoked
| ConditionEvaluated (index : nat)
| ChildInvoked (index : nat) (context : Context)
| BodyExecuted (iteration : nat) (context : Context).

Abbreviation Trace := (list Event).

(** ** The instruction contract *)

(** What a combinator uses of a child: its [name] attribute and its
    [execute] coroutine.  The call may return or raise, and it receives the
    caller's context dict itself, so what it writes there stays written. *)
Record Child : Type := {
  child_name : string;
  child_execute : Context -> Raises InstructionResult * Context
}.

(** The two hooks a subclass of [AdvancedInstruction] supplies. *)
Class AdvancedInstruction (T : Type) : Type := {
  name : T -> string;
  _validate : T -> Context -> Raises ValidationResult * Trace;
  _execute_impl : T -> Context -> Raises Data * Context * Trace
}.

(** One [execute] call as seen from outside. *)
Record Execution : Type := {
  returned : Raises InstructionResult;
  context_after : Context;
  trace : Trace
}.

Definition completed (d : Data) : InstructionResult :=
  mkInstructionResult COMPLETED d None.
Definition failed (message : string) : InstructionResult :=
  mkInstructionResult FAILED NoData (Some message).

(** Modelled from the spec: [AdvancedInstruction.execute] of
    [agentflow.core.instructions.advanced] (sections 4.1 and 4.2).  Validate
    first; an invalid outcome gives [Failed] with the joined violations and
    the body is not called; a raising validation is a validation failure
    too; otherwise run the body, [Completed] with its data on return,
    [Failed] with the failure's message when it raises.  [Running] is held
    only while the call lasts and no state is kept between calls, so a call
    is a function of the hooks and the context. *)
Definition execute {T : Type} `{AdvancedInstruction T} (self : T) (context : Context)
  : Execution :=
  let '(validation, checks) := _validate self context in
  match validation with
  | Raise e =>
      {| returned := Return (failed ("Error in validation: " +:+ str e));
         context_after := context;
         trace := checks |}
  | Return v =>
      if is_valid v then
        let '(outcome, context', inner) := _execute_impl self context in
        {| returned :=
             try_except
               (match outcome with
                | Return d => Return (completed d)
                | Raise e => Raise e
                end)
               (fun e => Return (failed (str e)));
           context_after := context';
           trace := checks ++ HookInvoked :: inner |}
      else
        {| returned := Return (failed (String.concat ", " (violations v)));
           context_after := context;
           trace := checks |}
  end.

(** An instruction seen as a child of a combinator. *)
Definition as_child {T : Type} `{AdvancedInstruction T} (self : T) : Child :=
  {| child_name := name self;
     child_execute := fun context =>
       let run := execute self context in (returned run, context_after run) |}.

(** ** SimpleInstruction *)

(** A validation rule: an awaited callable over the context whose result is
    read for its truth value.  A rule is taken to read the context and to
    return, or to raise an [Exception]; a rule that writes to the context
    or raises outside [Exception] is not described. *)
Abbreviation Rule := (Context -> Raises bool).

Module SimpleInstruction.

Record t : Type := {
  name : string;
  description : string;
  validation_rules : list Rule
}.

Definition __init__ (name description : string) : t :=
  {| name := name; description := description; validation_rules := [] |}.

Definition add_validation_rule (self : t) (rule : Rule) : t :=
  {| name := name self; description := description self;
     validation_rules := validation_rules self ++ [rule] |}.

Definition invalid (violation : string) : ValidationResult :=
  {| is_valid := false; score := 0%Q; metrics := ∅; violations := [violation] |}.

Definition valid : ValidationResult :=
  {| is_valid := true; score := 1%Q; metrics := ∅; violations := [] |}.

(** The loop of [_validate], from the rule at position [index] on. *)
Fixpoint validate_from (index : nat) (rules : list Rule) (context : Context)
  : ValidationResult * Trace :=
  match rules with
  | [] => (valid, [])
  | rule :: rest =>
      match rule context with
      | Return true =>
          let '(result, checks) := validate_from (S index) rest context in
          (result, RuleEvaluated index :: checks)
      | Return false => (invalid "Failed validation rule", [RuleEvaluated index])
      | Raise e =>
          (invalid ("Error in validation: " +:+ str e), [RuleEvaluated index])
      end
  end.

Definition _validate (self : t) (context : Context) : Raises ValidationResult * Trace :=
  let '(result, checks) := validate_from 0 (validation_rules self) context in
  (Return result, checks).

Definition _execute_impl (self : t) (context : Context) : Raises Data * Context * Trace :=
  let result_data : gmap string Value :=
    {[ "name" := VStr (name self); "result" := VStr "success" ]} in
  (Return (Mapping result_data), context, []).

End SimpleInstruction.

#[global] Instance SimpleInstruction_advanced : AdvancedInstruction SimpleInstruction.t := {
  name := SimpleInstruction.name;
  _validate := SimpleInstruction._validate;
  _execute_impl := SimpleInstruction._execute_impl
}.

(** ** Combinators

    Modelled from the spec: the [_validate] that the combinators inherit from
    [CompositeInstruction], [ParallelInstruction] and [ConditionalInstruction]
    (not available).  The spec gives a combinator a body and no rules of its
    own, and the tests of the module rely on the body being reached, so the
    inherited validation accepts. *)
Definition inherited_validate (context : Context) : Raises ValidationResult * Trace :=
  (Return SimpleInstruction.valid, []).

Module SimpleCompositeInstruction.

Record t : Type := {
  name : string;
  description : string;
  instructions : list Child
}.

(** What the [except] clause of the loop raises for a failure [e] met while
    handling [instruction]. *)
Definition wrapped (instruction : Child) (e : PyException) : PyException :=
  Exception ("Error in " +:+ child_name instruction +:+ ": " +:+ str e).

(** The [for] loop of [_execute_impl], from the child at position [index]
    on, with the [results] collected so far. *)
Fixpoint run_from (index : nat) (instructions : list Child)
    (results : list InstructionResult) (context : Context)
  : Raises (list InstructionResult) * Context * Trace :=
  match instructions with
  | [] => (Return results, context, [])
  | instruction :: rest =>
      if String.eqb (child_name instruction) "part1" then
        (Raise (wrapped instruction (Exception "Simulated error in part1")), context, [])
      else
        match child_execute instruction context with
        | (Raise e, context1) =>
            (Raise (wrapped instruction e), context1, [ChildInvoked index context])
        | (Return result, context1) =>
            match dict_update context1 (data result) with
            | Raise e =>
                (Raise (wrapped instruction e), context1, [ChildInvoked index context])
            | Return context2 =>
                let '(outcome, context3, calls) :=
                  run_from (S index) rest (results ++ [result]) context2 in
                (outcome, context3, ChildInvoked index context :: calls)
            end
        end
  end.

Definition _execute_impl (self : t) (context : Context) : Raises Data * Context * Trace :=
  let '(outcome, context', calls) := run_from 0 (instructions self) [] context in
  (match outcome with
   | Return results => Return (Sequence results)
   | Raise e => Raise e
   end, context', calls).

End SimpleCompositeInstruction.

#[global] Instance SimpleCompositeInstruction_advanced
  : AdvancedInstruction SimpleCompositeInstruction.t := {
  name := SimpleCompositeInstruction.name;
  _validate := fun _ => inherited_validate;
  _execute_impl := SimpleCompositeInstruction._execute_impl
}.

Module SimpleParallelInstruction.

Record t : Type := {
  name : string;
  description : string;
  instructions : list Child
}.

(** [asyncio.gather] over [tasks] with [return_exceptions=True]: every task is run to
    its end, a raised exception is kept as that task's entry, and the
    entries come back in the order of [tasks].  The tasks are started in
    that order on the one context dict; they are run here one after the
    other, which is the schedule of tasks that never suspend. *)
Fixpoint gather (index : nat) (tasks : list Child) (context : Context)
  : list (Raises InstructionResult) * Context * Trace :=
  match tasks with
  | [] => ([], context, [])
  | task :: rest =>
      let '(entry, context1) := child_execute task context in
      let '(entries, context2, calls) := gather (S index) rest context1 in
      (entry :: entries, context2, ChildInvoked index context :: calls)
  end.

(** The children that are launched: [self.instructions[:2]]. *)
Definition launched (self : t) : list Child := take 2 (instructions self).

(** The partition loop: an entry that is an [InstructionResult] gives its
    [data] to [successful_results], any other entry gives [str(r)] to
    [failed_results]. *)
Definition successful_results (results : list (Raises InstructionResult)) : list Data :=
  omap (fun r => match r with Return result => Some (data result) | Raise _ => None end)
       results.

Definition failed_results (results : list (Raises InstructionResult)) : list string :=
  omap (fun r => match r with Return _ => None | Raise e => Some (str e) end) results.

Definition _execute_impl (self : t) (context : Context) : Raises Data * Context * Trace :=
  let '(results, context', calls) := gather 0 (launched self) context in
  match failed_results results with
  | [] =>
      let result_data : gmap string Value :=
        {[ "results" := VList (data_value <$> successful_results results) ]} in
      (Return (Mapping result_data), context', calls)
  | failures =>
      (Raise (Exception ("One or more instructions failed: " +:+ String.concat ", " failures)),
       context', calls)
  end.

End SimpleParallelInstruction.

#[global] Instance SimpleParallelInstruction_advanced
  : AdvancedInstruction SimpleParallelInstruction.t := {
  name := SimpleParallelInstruction.name;
  _validate := fun _ => inherited_validate;
  _execute_impl := SimpleParallelInstruction._execute_impl
}.

(** A condition: an awaited callable over the context, read for its truth
    value. *)
Abbreviation Condition := (Context -> Raises bool).

(** [ConditionalInstructionTest]; the module's own [ConditionalInstruction]
    class has the same body line for line. *)
Module ConditionalInstructionTest.

Record t : Type := {
  name : string;
  description : string;
  conditions : list (Condition * Child)
}.

Definition __init__ (name description : string) : t :=
  {| name := name; description := description; conditions := [] |}.

Definition add_condition (self : t) (condition : Condition) (instruction : Child) : t :=
  {| name := name self; description := description self;
     conditions := conditions self ++ [(condition, instruction)] |}.

(** The [for] loop of [_execute_impl], from the pair at position [index]
    on; falling out of the loop raises the [ValueError]. *)
Fixpoint select_from (index : nat) (conditions : list (Condition * Child))
    (context : Context) : Raises Data * Context * Trace :=
  match conditions with
  | [] => (Raise (ValueError "No matching condition found"), context, [])
  | (condition, instruction) :: rest =>
      match condition context with
      | Raise e => (Raise e, context, [ConditionEvaluated index])
      | Return true =>
          let calls := [ConditionEvaluated index; ChildInvoked index context] in
          match child_execute instruction context with
          | (Raise e, context1) => (Raise e, context1, calls)
          | (Return result, context1) =>
              let wrapped : gmap string Value := {[ "result" := data_value (data result) ]} in
              (Return (Mapping wrapped), context1, calls)
          end
      | Return false =>
          let '(outcome, context1, calls) := select_from (S index) rest context in
          (outcome, context1, ConditionEvaluated index :: calls)
      end
  end.

Definition _execute_impl (self : t) (context : Context) : Raises Data * Context * Trace :=
  select_from 0 (conditions self) context.

End ConditionalInstructionTest.

#[global] Instance ConditionalInstructionTest_advanced
  : AdvancedInstruction ConditionalInstructionTest.t := {
  name := ConditionalInstructionTest.name;
  _validate := fun _ => inherited_validate;
  _execute_impl := ConditionalInstructionTest._execute_impl
}.

(** ** IterativeInstruction *)

Module IterativeInstruction.

(** Modelled from the spec: [IterativeInstruction] of
    [agentflow.core.instructions.advanced] (sections 4.6, 6 and 7; the test
    module only constructs it).  It is configured with an inner body and a
    maximum iteration count; [should_stop] is the implementation-defined
    convergence or stop condition, read after each iteration from the
    counter and that iteration's outcome, so that it also carries the
    policy on a failed iteration. *)
Record t : Type := {
  name : string;
  description : string;
  max_iterations : Z;
  body : Child;
  should_stop : nat -> Raises InstructionResult -> bool
}.

(** Modelled from the spec: the constructor; a non-positive iteration budget
    is fatal at construction time (section 7). *)
Definition __init__ (name description : string) (max_iterations : Z) (body : Child)
    (should_stop : nat -> Raises InstructionResult -> bool) : Raises t :=
  if (max_iterations <=? 0)%Z then
    Raise (ValueError "max_iterations must be a positive integer")
  else
    Return {| name := name; description := description;
              max_iterations := max_iterations; body := body;
              should_stop := should_stop |}.

(** Modelled from the spec: the loop of section 4.6.  Execute the inner body,
    increment the iteration counter, record the outcome, and go on until
    the counter reaches the maximum or the stop condition is satisfied.
    [budget] bounds the recursion and starts at the maximum. *)
Fixpoint iterate (budget : nat) (self : t) (iteration : nat)
    (history : list (Raises InstructionResult)) (context : Context)
  : list (Raises InstructionResult) * Context * Trace :=
  match budget with
  | 0 => (history, context, [])
  | S budget' =>
      let '(outcome, context1) := child_execute (body self) context in
      let iteration' := S iteration in
      let history' := history ++ [outcome] in
      if (Z.of_nat iteration' =? max_iterations self)%Z || should_stop self iteration' outcome
      then (history', context1, [BodyExecuted iteration context])
      else
        let '(history'', context2, runs) := iterate budget' self iteration' history' context1 in
        (history'', context2, BodyExecuted iteration context :: runs)
  end.

(** Modelled from the spec: the body hook; the data exposes the number of
    iterations performed and the terminal iteration's output, and a
    failure left standing at the end fails the instruction. *)
Definition _execute_impl (self : t) (context : Context) : Raises Data * Context * Trace :=
  let '(history, context', runs) :=
    iterate (Z.to_nat (max_iterations self)) self 0 [] context in
  (match last history with
   | Some (Raise e) => Raise e
   | Some (Return result) =>
       Return (Mapping {[ "iterations" := VInt (Z.of_nat (length history));
                          "result" := data_value (data result) ]})
   | None =>
       Return (Mapping {[ "iterations" := VInt 0; "result" := VNone ]})
   end, context', runs).

End IterativeInstruction.

#[global] Instance IterativeInstruction_advanced
  : AdvancedInstruction IterativeInstruction.t := {
  name := IterativeInstruction.name;
  _validate := fun _ => inherited_validate;
  _execute_impl := IterativeInstruction._execute_impl
}.

(** ** Vocabulary of the properties *)

(** A status an [execute] call may end in. *)
Definition terminal (s : InstructionStatus) : bool :=
  match s with
  | COMPLETED | FAILED => true
  | PENDING | RUNNING => false
  end.

(** The invariant of the result envelope (section 3): data on a completed
    result, an error on a failed one, never both. *)
Definition well_formed (r : InstructionResult) : Prop :=
  match status r with
  | COMPLETED => error r = None
  | FAILED => data r = NoData ∧ is_Some (error r)
  | PENDING | RUNNING => False
  end.

(** The single violation [SimpleInstruction._validate] reports for the rule
    that stopped it, from that rule's outcome. *)
Definition violation_of (outcome : Raises bool) : string :=
  match outcome with
  | Raise e => "Error in validation: " +:+ str e
  | Return _ => "Failed validation rule"
  end.

(** The positions of the children whose [execute] was called, in call
    order. *)
Definition invoked (events : Trace) : list nat :=
  omap (fun event => match event with
                     | ChildInvoked index _ => Some index
                     | _ => None
                     end) events.

(** Python's [needle in haystack] on strings. *)
Fixpoint contains (needle haystack : string) : bool :=
  String.prefix needle haystack ||
  match haystack with
  | EmptyString => false
  | String _ rest => contains needle rest
  end.

(** A child fails on a context when its invocation raises or it returns a
    [FAILED] result (one that obeys the invariant of the envelope). *)
Definition child_fails (instruction : Child) (context : Context) : Prop :=
  match child_execute instruction context with
  | (Raise _, _) => True
  | (Return result, _) => status result = FAILED ∧ well_formed result
  end.

(** A child succeeds on a context when its invocation returns a [COMPLETED]
    result whose data is a mapping. *)
Definition child_succeeds (instruction : Child) (context : Context) : Prop :=
  match child_execute instruction context with
  | (Return result, _) => status result = COMPLETED ∧ ∃ d, data result = Mapping d
  | (Raise _, _) => False
  end.

(** A child that removes no key from the context it is given. *)
Definition keeps_keys (instruction : Child) : Prop :=
  ∀ context, dom context ⊆ dom (child_execute instruction context).2.

(** The contexts the children were called with, in call order. *)
Definition contexts_seen (events : Trace) : list Context :=
  omap (fun event => match event with
                     | ChildInvoked _ context => Some context
                     | _ => None
                     end) events.

(** Context threading, stated on its own: starting from [context], each
    child in turn is called with the current context and returns a result
    with mapping data; the next context is what the child left of the
    context, updated with that data.  [threads instructions context results
    seen final] relates the children to their results, the contexts they
    were called with and the context left at the end. *)
Inductive threads : list Child → Context → list InstructionResult → list Context → Context → Prop :=
| threads_nil (context : Context) : threads [] context [] [] context
| threads_cons (instruction : Child) (rest : list Child) (context context1 : Context)
    (result : InstructionResult) (d : gmap string Value)
    (results : list InstructionResult) (seen : list Context) (final : Context) :
    child_execute instruction context = (Return result, context1) →
    data result = Mapping d →
    threads rest (d ∪ context1) results seen final →
    threads (instruction :: rest) context (result :: results) (context :: seen) final.

(** The entries [gather] hands back for the launched children of a parallel
    instruction, in launch order. *)
Definition launched_outcomes (self : SimpleParallelInstruction.t) (context : Context)
  : list (Raises InstructionResult) :=
  (SimpleParallelInstruction.gather 0 (SimpleParallelInstruction.launched self) context).1.1.

(** The iterations whose body was executed, in order. *)
Definition iterations_run (events : Trace) : list nat :=
  omap (fun event => match event with
                     | BodyExecuted iteration _ => Some iteration
                     | _ => None
                     end) events.

(** ** Fixtures *)

(** A [SimpleInstruction] with three rules: one that passes, one that
    returns false, one that raises. *)
Definition rules_fixture : SimpleInstruction.t :=
  SimpleInstruction.add_validation_rule
    (SimpleInstruction.add_validation_rule
       (SimpleInstruction.add_validation_rule
          (SimpleInstruction.__init__ "test" "Test instruction")
          (fun _ => Return true))
       (fun _ => Return false))
    (fun _ => Raise (Exception "boom")).

(** A [SimpleInstruction] that its one rule rejects. *)
Definition rejecting_child : SimpleInstruction.t :=
  SimpleInstruction.add_validation_rule
    (SimpleInstruction.__init__ "step" "Step") (fun _ => Return false).

(** A [SimpleInstruction] without rules, as the tests build them. *)
Definition plain (name : string) : SimpleInstruction.t :=
  SimpleInstruction.__init__ name name.

Definition composite_of (instructions : list Child) : SimpleCompositeInstruction.t :=
  {| SimpleCompositeInstruction.name := "composite";
     SimpleCompositeInstruction.description := "Composite instruction";
     SimpleCompositeInstruction.instructions := instructions |}.

(** Three children, the middle one rejected by its validation. *)
Definition fail_fast_fixture : SimpleCompositeInstruction.t :=
  composite_of [as_child (plain "a"); as_child rejecting_child; as_child (plain "c")].

(** The composite of [test_execution_order]. *)
Definition part1_fixture : SimpleCompositeInstruction.t :=
  composite_of [as_child (plain "part1"); as_child (plain "part2")].

(** [sample_context] of the test module. *)
Definition sample_context : Context :=
  {[ "input" := VStr "test_input";
     "variables" := VDict {[ "x" := VInt 1; "y" := VInt 2 ]};
     "resources" := VDict {[ "memory" := VInt 1024; "cpu" := VInt 4 ]};
     "state" := VStr "ready" ]}.

Definition threading_fixture : SimpleCompositeInstruction.t :=
  composite_of [as_child (plain "first"); as_child (plain "second")].

(** A conditional instruction with its pairs registered one by one, in the
    order of the list. *)
Definition conditional_of (conditions : list (Condition * Child))
  : ConditionalInstructionTest.t :=
  foldl (fun self pair => ConditionalInstructionTest.add_condition self pair.1 pair.2)
        (ConditionalInstructionTest.__init__ "conditional" "Conditional instruction")
        conditions.

Definition true_condition : Condition := fun _ => Return true.
Definition false_condition : Condition := fun _ => Return false.
Definition raising_condition : Condition := fun _ => Raise (Exception "condition failed").

(** Predicates [false, true] mapped to the instructions named then and
    else. *)
Definition branch_fixture : ConditionalInstructionTest.t :=
  conditional_of [(false_condition, as_child (plain "then"));
                  (true_condition, as_child (plain "else"))].

(** Predicates [false, false]. *)
Definition no_match_fixture : ConditionalInstructionTest.t :=
  conditional_of [(false_condition, as_child (plain "then"));
                  (false_condition, as_child (plain "else"))].

(** A predicate that raises, placed before one that would match. *)
Definition raising_fixture : ConditionalInstructionTest.t :=
  conditional_of [(false_condition, as_child (plain "then"));
                  (raising_condition, as_child (plain "broken"));
                  (true_condition, as_child (plain "else"))].

Definition parallel_of (instructions : list Child) : SimpleParallelInstruction.t :=
  {| SimpleParallelInstruction.name := "parallel";
     SimpleParallelInstruction.description := "Parallel instruction";
     SimpleParallelInstruction.instructions := instructions |}.

(** A child whose invocation raises. *)
Definition raising_child (name message : string) : Child :=
  {| child_name := name;
     child_execute := fun context => (Raise (Exception message), context) |}.

(** The parallel instruction of [test_parallel_execution]. *)
Definition parallel_fixture : SimpleParallelInstruction.t :=
  parallel_of [as_child (plain "part1"); as_child (plain "part2")].

(** Three children: only the first two are launched. *)
Definition three_fixture : SimpleParallelInstruction.t :=
  parallel_of [as_child (plain "part1"); as_child (plain "part2"); as_child (plain "part3")].

(** Two launched children whose invocations both raise. *)
Definition both_raise_fixture : SimpleParallelInstruction.t :=
  parallel_of [raising_child "left" "left failed"; raising_child "right" "right failed"].

(** A launched child that returns a [FAILED] result. *)
Definition rejected_fixture : SimpleParallelInstruction.t :=
  parallel_of [as_child (plain "part1"); as_child rejecting_child].

(** The iterative instruction of [test_iteration_control], with a body that
    never asks to stop. *)
Definition iterative_fixture : IterativeInstruction.t :=
  {| IterativeInstruction.name := "iterative";
     IterativeInstruction.description := "Iterative instruction";
     IterativeInstruction.max_iterations := 5;
     IterativeInstruction.body := as_child (plain "body");
     IterativeInstruction.should_stop := fun _ _ => false |}.


(** ** Further vocabulary *)

(** A child whose invocation never raises, as is every instruction that goes
    through [execute]. *)
Definition returns (instruction : Child) : Prop :=
  ∀ context, ∃ result, (child_execute instruction context).1 = Return result.

(** The positions of the conditions that were evaluated, in order. *)
Definition conditions_evaluated (events : Trace) : list nat :=
  omap (fun event => match event with
                     | ConditionEvaluated index => Some index
                     | _ => None
                     end) events.

(** The data a [SimpleInstruction] named [name] returns. *)
Definition simple_data (name : string) : gmap string Value :=
  {[ "name" := VStr name; "result" := VStr "success" ]}.

(** ** Python dicts with string keys, in insertion order

    [agentflow/agents/agent_factory.py] lists the keys of a dict, so the
    order matters: assigning to a key that is present keeps its place,
    assigning to a new key puts it last, deleting removes the entry. *)
Module PyDict.

Section Operations.

Context {V : Type}.

(** [d.get(key)] *)
Fixpoint get (d : list (string * V)) (key : string) : option V :=
  match d with
  | [] => None
  | (k, v) :: rest => if String.eqb k key then Some v else get rest key
  end.

(** [d[key] = value] *)
Fixpoint set (d : list (string * V)) (key : string) (value : V) : list (string * V) :=
  match d with
  | [] => [(key, value)]
  | (k, v) :: rest =>
      if String.eqb k key then (k, value) :: rest else (k, v) :: set rest key value
  end.

(** [del d[key]], for a key that may be absent *)
Fixpoint del (d : list (string * V)) (key : string) : list (string * V) :=
  match d with
  | [] => []
  | (k, v) :: rest => if String.eqb k key then del rest key else (k, v) :: del rest key
  end.

(** [list(d.keys())] *)
Definition keys (d : list (string * V)) : list string := d.*1.

End Operations.

End PyDict.

(** ** AgentFactory *)

(** Values that [to_dict] produces and [from_dict] reads. *)
#[warnings="-register-all"]
Inductive Json : Type :=
| JNull
| JBool (b : bool)
| JInt (z : Z)
| JString (s : string)
| JList (l : list Json)
| JObject (items : list (string * Json)).

(** The class [Agent] of [agentflow.agents.agent] is not available; the
    factory uses its constructor, its [id] attribute, [to_dict] and
    [from_dict], which are taken as parameters. *)
Class AgentClass (Agent Config : Type) : Type := {
  agent_new : Config → Agent;
  agent_id : Agent → string;
  agent_to_dict : Agent → Json;
  agent_from_dict : Json → Agent
}.

Module AgentFactory.

Section Factory.

Context {Agent Config : Type} `{AgentClass Agent Config}.

Record t : Type := {
  id : string;
  name : string;
  description : option string;
  agents : list (string * Agent);
  metadata : list (string * Json)
}.

(** The factory with its defaults; [fresh] is what the default factory of
    [id], [str(uuid.uuid4())], produced. *)
Definition __init__ (fresh : string) : t :=
  {| id := fresh; name := ""; description := None; agents := []; metadata := [] |}.

Definition create_agent (self : t) (config : Config) : Agent * t :=
  let agent := agent_new config in
  (agent,
   {| id := id self; name := name self; description := description self;
      agents := PyDict.set (agents self) (agent_id agent) agent;
      metadata := metadata self |}).

Definition get_agent (self : t) (agent_id : string) : option Agent :=
  PyDict.get (agents self) agent_id.

Definition list_agents (self : t) : list string := PyDict.keys (agents self).

Definition remove_agent (self : t) (agent_id : string) : t :=
  match PyDict.get (agents self) agent_id with
  | Some _ =>
      {| id := id self; name := name self; description := description self;
         agents := PyDict.del (agents self) agent_id;
         metadata := metadata self |}
  | None => self
  end.

Definition to_dict (self : t) : list (string * Json) :=
  [ ("id", JString (id self));
    ("name", JString (name self));
    ("description", match description self with
                    | Some text => JString text
                    | None => JNull
                    end);
    ("agents", JObject (prod_map (fun k => k) agent_to_dict <$> agents self));
    ("metadata", JObject (metadata self)) ].

(** [from_dict]: the entry under agents, when there is one, is rebuilt
    agent by agent, and the class is called with the entries as keyword
    arguments.  A field without an entry takes its default ([fresh] for
    [id]); entries under other keys are ignored.  [None] stands for an
    entry whose value is not of its field's type, where the outcome is
    decided by pydantic and is not described here.  (The code also leaves
    the rebuilt agents in the caller's [data]; that dict is not returned
    here.) *)
Definition from_dict (fresh : string) (data : list (string * Json)) : option t :=
  let field {A : Type} (key : string) (default : A) (read : Json → option A) : option A :=
    match PyDict.get data key with
    | None => Some default
    | Some value => read value
    end in
  match
    field "id" fresh (fun v => match v with JString s => Some s | _ => None end),
    field "name" "" (fun v => match v with JString s => Some s | _ => None end),
    field "description" None
      (fun v => match v with
                | JString s => Some (Some s)
                | JNull => Some None
                | _ => None
                end),
    field "agents" []
      (fun v => match v with
                | JObject items => Some (prod_map (fun k => k) agent_from_dict <$> items)
                | _ => None
                end),
    field "metadata" []
      (fun v => match v with JObject items => Some items | _ => None end)
  with
  | Some id, Some name, Some description, Some agents, Some metadata =>
      Some {| id := id; name := name; description := description;
              agents := agents; metadata := metadata |}
  | _, _, _, _, _ => None
  end.

End Factory.

Arguments t Agent : clear implicits.

End AgentFactory.

(** ** TransformationStrategy *)

Module TransformationStrategy.

(** [config.get(key, default)] *)
Definition config_get (config : gmap string Value) (key : string) (default : Value) : Value :=
  match config !! key with
  | Some value => value
  | None => default
  end.

Record t : Type := {
  config : gmap string Value;
  name : Value;
  description : Value;
  version : Value
}.

(** [class_name] is [self.__class__.__name__]. *)
Definition __init__ (class_name : string) (config : gmap string Value) : t :=
  {| config := config;
     name := config_get config "name" (VStr class_name);
     description := config_get config "description" (VStr "");
     version := config_get config "version" (VStr "1.0.0") |}.

Definition get_name (self : t) : Value := name self.
Definition get_description (self : t) : Value := description self.
Definition get_version (self : t) : Value := version self.

End TransformationStrategy.

(** ** Fixtures for the factory *)

(** A stand-in for the class [Agent]: an agent is its id and its name, it is
    built from a configuration that gives both, and it is written to and
    read from a dict with these two keys. *)
Record SampleAgent : Type := { sample_id : string; sample_name : string }.

Definition sample_agent_class : AgentClass SampleAgent SampleAgent :=
  {| agent_new := fun config => config;
     agent_id := sample_id;
     agent_to_dict := fun agent =>
       JObject [("id", JString (sample_id agent)); ("name", JString (sample_name agent))];
     agent_from_dict := fun value =>
       match value with
       | JObject [(_, JString id); (_, JString name)] =>
           {| sample_id := id; sample_name := name |}
       | _ => {| sample_id := ""; sample_name := "" |}
       end |}.

Definition sample_factory : AgentFactory.t SampleAgent :=
  {| AgentFactory.id := "factory-1";
     AgentFactory.name := "research";
     AgentFactory.description := Some "Agents of the research team";
     AgentFactory.agents :=
       [("a1", {| sample_id := "a1"; sample_name := "reader" |});
        ("a2", {| sample_id := "a2"; sample_name := "writer" |})];
     AgentFactory.metadata := [("owner", JString "lab")] |}.

(** ** Further fixtures *)

(** Three rule-free children, the middle one named part1. *)
Definition simulated_fixture : SimpleCompositeInstruction.t :=
  composite_of [as_child (plain "a"); as_child (plain "part1"); as_child (plain "c")].

(** A rule that asks for a key to be present in the context. *)
Definition needs_key (key : string) : Rule :=
  fun context => Return (bool_decide (is_Some (context !! key))).

(** The second child is valid only on a context that holds the key name,
    which the first child's data brings. *)
Definition dependent_fixture : SimpleCompositeInstruction.t :=
  composite_of
    [as_child (plain "first");
     as_child (SimpleInstruction.add_validation_rule
                 (SimpleInstruction.__init__ "second" "Second") (needs_key "name"))].

(** * Properties *)

Section Boundary.

Context {T : Type} `{AdvancedInstruction T}.

Lemma execute_returns (self : T) (context : Context) :
  ∃ result, returned (execute self context) = Return result ∧ well_formed result.
Proof.
  unfold execute.
  destruct (_validate self context) as [[v|e] checks]; simpl.
  - destruct (is_valid v).
    + destruct (_execute_impl self context) as [[[d|e] context'] inner]; simpl.
      * exists (completed d). split; [reflexivity | reflexivity].
      * exists (failed (str e)). split; [reflexivity | split; [reflexivity | eauto]].
    + eexists. split; [reflexivity | split; [reflexivity | simpl; eauto]].
  - eexists. split; [reflexivity | split; [reflexivity | simpl; eauto]].
Qed.

Lemma well_formed_terminal (r : InstructionResult) :
  well_formed r → terminal (status r) = true.
Proof. unfold well_formed. destruct (status r); simpl; tauto. Qed.

Lemma execute_validation_raises (self : T) (context : Context) e checks :
  _validate self context = (Raise e, checks) →
  execute self context =
    {| returned := Return (failed ("Error in validation: " +:+ str e));
       context_after := context; trace := checks |}.
Proof. intros Hv. unfold execute. rewrite Hv. reflexivity. Qed.

Lemma execute_invalid (self : T) (context : Context) v checks :
  _validate self context = (Return v, checks) →
  is_valid v = false →
  execute self context =
    {| returned := Return (failed (String.concat ", " (violations v)));
       context_after := context; trace := checks |}.
Proof. intros Hv Hi. unfold execute. rewrite Hv, Hi. reflexivity. Qed.

Lemma execute_body (self : T) (context : Context) v checks outcome context' inner :
  _validate self context = (Return v, checks) →
  is_valid v = true →
  _execute_impl self context = (outcome, context', inner) →
  execute self context =
    {| returned := Return (match outcome with
                           | Return d => completed d
                           | Raise e => failed (str e)
                           end);
       context_after := context'; trace := checks ++ HookInvoked :: inner |}.
Proof.
  intros Hv Hi Hb. unfold execute. rewrite Hv, Hi, Hb.
  destruct outcome; reflexivity.
Qed.

End Boundary.

(** C1: for every instruction and every context, [execute] does not raise:
    it returns a result whose status is [COMPLETED] or [FAILED]; a failure
    raised by validation, an invalid validation outcome and a failure
    raised by the body each give a [FAILED] result, and the body's return
    gives [COMPLETED] with the returned data. *)
Theorem execute_never_raises {T : Type} `{AdvancedInstruction T}
    (self : T) (context : Context) :
  ∃ result,
    returned (execute self context) = Return result ∧
    (status result = COMPLETED ∨ status result = FAILED) ∧
    (∀ e checks, _validate self context = (Raise e, checks) →
       status result = FAILED ∧ error result = Some ("Error in validation: " +:+ str e)) ∧
    (∀ v checks, _validate self context = (Return v, checks) → is_valid v = false →
       status result = FAILED) ∧
    (∀ v checks outcome context' inner,
       _validate self context = (Return v, checks) → is_valid v = true →
       _execute_impl self context = (outcome, context', inner) →
       match outcome with
       | Raise e => status result = FAILED ∧ error result = Some (str e)
       | Return d => status result = COMPLETED ∧ data result = d
       end).
Proof.
  destruct (execute_returns self context) as (result & Hret & Hwf).
  exists result. split; [exact Hret |]. split.
  - apply well_formed_terminal in Hwf.
    destruct (status result); simpl in Hwf; auto; discriminate.
  - split; [| split].
    + intros e checks Hv.
      rewrite (execute_validation_raises _ _ _ _ Hv) in Hret. simpl in Hret.
      injection Hret as <-. split; reflexivity.
    + intros v checks Hv Hi.
      rewrite (execute_invalid _ _ _ _ Hv Hi) in Hret. simpl in Hret.
      injection Hret as <-. reflexivity.
    + intros v checks outcome context' inner Hv Hi Hb.
      rewrite (execute_body _ _ _ _ _ _ _ Hv Hi Hb) in Hret. simpl in Hret.
      injection Hret as <-. destruct outcome; split; reflexivity.
Qed.

(** ** Validation *)

Lemma validate_from_passes (rules : list Rule) (index : nat) (context : Context) :
  Forall (fun rule : Rule => rule context = Return true) rules →
  SimpleInstruction.validate_from index rules context =
    (SimpleInstruction.valid, RuleEvaluated <$> seq index (length rules)).
Proof.
  revert index. induction rules as [|rule rest IH]; intros index Hall; simpl.
  - reflexivity.
  - inversion Hall as [|? ? Hrule Hrest]; subst.
    rewrite Hrule, (IH (S index) Hrest). reflexivity.
Qed.

Lemma validate_from_first_failure (rules : list Rule) (index : nat) (context : Context) :
  (∃ rule : Rule, rule ∈ rules ∧ rule context ≠ Return true) →
  ∃ (k : nat) (rule : Rule),
    rules !! k = Some rule ∧
    rule context ≠ Return true ∧
    (∀ j (earlier : Rule), j < k → rules !! j = Some earlier → earlier context = Return true) ∧
    SimpleInstruction.validate_from index rules context =
      (SimpleInstruction.invalid (violation_of (rule context)),
       RuleEvaluated <$> seq index (S k)).
Proof.
  revert index. induction rules as [|rule rest IH]; intros index (bad & Hin & Hbad).
  - inversion Hin.
  - destruct (rule context) as [[|]|e] eqn:Hrule.
    + assert (Hrest : ∃ r : Rule, r ∈ rest ∧ r context ≠ Return true).
      { exists bad. split; [| exact Hbad].
        apply elem_of_cons in Hin as [-> | Hin]; [congruence | exact Hin]. }
      destruct (IH (S index) Hrest) as (k & r & Hk & Hr & Hbefore & Hrun).
      exists (S k), r. split; [exact Hk |]. split; [exact Hr |]. split.
      * intros [|j] earlier Hj Hl; simpl in Hl.
        -- injection Hl as <-. exact Hrule.
        -- apply (Hbefore j); [lia | exact Hl].
      * simpl. rewrite Hrule, Hrun. reflexivity.
    + exists 0, rule. split; [reflexivity |]. split; [congruence |]. split.
      * intros j earlier Hj. lia.
      * simpl. rewrite Hrule. reflexivity.
    + exists 0, rule. split; [reflexivity |]. split; [congruence |]. split.
      * intros j earlier Hj. lia.
      * simpl. rewrite Hrule. reflexivity.
Qed.

(** C2: when some validation rule of a [SimpleInstruction] does not return
    true on the context (it returns false or raises), [execute] returns a
    [FAILED] result and [_execute_impl] is not invoked; the rules are
    evaluated in order up to the first one that returns false or raises,
    and that rule gives the error. *)
Theorem validation_failure_skips_body (self : SimpleInstruction.t) (context : Context) :
  (∃ rule : Rule, rule ∈ SimpleInstruction.validation_rules self ∧
                  rule context ≠ Return true) →
  ∃ (k : nat) (rule : Rule) (result : InstructionResult),
    SimpleInstruction.validation_rules self !! k = Some rule ∧
    rule context ≠ Return true ∧
    (∀ j (earlier : Rule), j < k →
       SimpleInstruction.validation_rules self !! j = Some earlier →
       earlier context = Return true) ∧
    returned (execute self context) = Return result ∧
    status result = FAILED ∧
    error result = Some (violation_of (rule context)) ∧
    trace (execute self context) = RuleEvaluated <$> seq 0 (S k) ∧
    HookInvoked ∉ trace (execute self context).
Proof.
  intros Hbad.
  destruct (validate_from_first_failure _ 0 context Hbad)
    as (k & rule & Hk & Hrule & Hbefore & Hrun).
  exists k, rule, (failed (violation_of (rule context))).
  assert (Hexec : execute self context =
    {| returned := Return (failed (violation_of (rule context)));
       context_after := context; trace := RuleEvaluated <$> seq 0 (S k) |}).
  { unfold execute. cbn [_validate SimpleInstruction_advanced].
    unfold SimpleInstruction._validate. rewrite Hrun. reflexivity. }
  rewrite Hexec. cbn [returned trace].
  repeat split; try assumption; try reflexivity.
  intros Hin. apply list_elem_of_fmap in Hin as (j & Hj & _). discriminate.
Qed.

(** The rules of the witness: the first passes, the second returns false, the
    third would raise. *)
Lemma validation_failure_skips_body_witness :
  ∃ (k : nat) (rule : Rule) (result : InstructionResult),
    [(fun _ => Return true) : Rule; fun _ => Return false;
     fun _ => Raise (Exception "boom")] !! k = Some rule ∧
    rule (∅ : Context) ≠ Return true ∧
    (∀ j (earlier : Rule), j < k →
       [(fun _ => Return true) : Rule; fun _ => Return false;
        fun _ => Raise (Exception "boom")] !! j = Some earlier →
       earlier (∅ : Context) = Return true) ∧
    returned (execute (rules_fixture) ∅) = Return result ∧
    status result = FAILED ∧
    error result = Some (violation_of (rule (∅ : Context))) ∧
    trace (execute rules_fixture ∅) = RuleEvaluated <$> seq 0 (S k) ∧
    HookInvoked ∉ trace (execute rules_fixture ∅).
Proof.
  apply (validation_failure_skips_body rules_fixture ∅).
  exists (fun _ => Return false). split; [| discriminate].
  apply elem_of_cons. right. apply elem_of_cons. left. reflexivity.
Defined.

(** ** Composite *)

Section Composite.

Local Abbreviation run_from := SimpleCompositeInstruction.run_from.

Lemma invoked_hook (events : Trace) : invoked (HookInvoked :: events) = invoked events.
Proof. reflexivity. Qed.

Lemma invoked_child index context (events : Trace) :
  invoked (ChildInvoked index context :: events) = index :: invoked events.
Proof. reflexivity. Qed.

Lemma run_from_app (before rest : list Child) index results context results' reached calls :
  run_from index before results context = (Return results', reached, calls) →
  run_from index (before ++ rest) results context =
    let '(outcome, context', calls') :=
      run_from (index + length before) rest results' reached in
    (outcome, context', calls ++ calls').
Proof.
  revert index results context calls.
  induction before as [|instruction before IH]; intros index results context calls Hrun.
  - simpl in Hrun. injection Hrun as <- <- <-. simpl. rewrite Nat.add_0_r.
    destruct (run_from index rest results context) as [[? ?] ?]. reflexivity.
  - simpl in Hrun. simpl.
    destruct (String.eqb (child_name instruction) "part1"); [discriminate |].
    destruct (child_execute instruction context) as [[result|e] context1]; [| discriminate].
    destruct (dict_update context1 (data result)) as [context2|e]; [| discriminate].
    destruct (run_from (S index) before (results ++ [result]) context2)
      as [[outcome context3] calls0] eqn:Hrest.
    injection Hrun as -> <- <-.
    rewrite (IH _ _ _ _ Hrest), <- Nat.add_succ_comm.
    destruct (run_from (S index + length before) rest results' context3) as [[? ?] ?].
    reflexivity.
Qed.

Lemma run_from_invoked (instructions : list Child) index results context results' reached calls :
  run_from index instructions results context = (Return results', reached, calls) →
  invoked calls = seq index (length instructions) ∧
  length results' = length results + length instructions.
Proof.
  revert index results context calls.
  induction instructions as [|instruction rest IH]; intros index results context calls Hrun;
    simpl in Hrun.
  - injection Hrun as <- <- <-. split; [reflexivity | simpl; lia].
  - destruct (String.eqb (child_name instruction) "part1"); [discriminate |].
    destruct (child_execute instruction context) as [[result|e] context1]; [| discriminate].
    destruct (dict_update context1 (data result)) as [context2|e]; [| discriminate].
    destruct (run_from (S index) rest (results ++ [result]) context2)
      as [[outcome context3] calls0] eqn:Hrest.
    injection Hrun as -> <- <-.
    destruct (IH _ _ _ _ Hrest) as [Hcalls Hlen]. split.
    + change (invoked (ChildInvoked index context :: calls0))
        with (index :: invoked calls0).
      rewrite Hcalls. reflexivity.
    + rewrite Hlen, length_app. simpl. lia.
Qed.

Lemma invoked_app (a b : Trace) : invoked (a ++ b) = invoked a ++ invoked b.
Proof. unfold invoked. apply omap_app. Qed.

Lemma execute_composite (self : SimpleCompositeInstruction.t) (context : Context) outcome context' calls :
  run_from 0 (SimpleCompositeInstruction.instructions self) [] context = (outcome, context', calls) →
  execute self context =
    {| returned := Return (match outcome with
                           | Return results => completed (Sequence results)
                           | Raise e => failed (str e)
                           end);
       context_after := context'; trace := HookInvoked :: calls |}.
Proof.
  intros Hrun.
  rewrite (execute_body self context SimpleInstruction.valid []
             (match outcome with
              | Return results => Return (Sequence results)
              | Raise e => Raise e
              end) context' calls); try reflexivity.
  - destruct outcome; reflexivity.
  - cbn [_execute_impl SimpleCompositeInstruction_advanced].
    unfold SimpleCompositeInstruction._execute_impl. rewrite Hrun. reflexivity.
Qed.

End Composite.

(** C3 (amended): in a composite whose children before [offending] all went
    through, if the invocation of [offending] raises (for a child named
    part1: the simulated failure raised in its place), then no later child
    is invoked and [execute] returns a [FAILED] result whose error names
    the offending child and its error: "Error in <name>: <message of the
    raised failure>".  The context is left as the offending child left it,
    and nothing about the call depends on the children behind it. *)
Theorem composite_fails_fast (self : SimpleCompositeInstruction.t) (context : Context)
    (before after : list Child) (offending : Child)
    (results : list InstructionResult) (reached : Context) (calls : Trace)
    (raised : PyException) (left : Context) :
  SimpleCompositeInstruction.instructions self = before ++ offending :: after →
  SimpleCompositeInstruction.run_from 0 before [] context = (Return results, reached, calls) →
  (child_name offending = "part1" ∧
   raised = Exception "Simulated error in part1" ∧ left = reached) ∨
  (child_name offending ≠ "part1" ∧
   child_execute offending reached = (Raise raised, left)) →
  returned (execute self context) =
    Return (failed ("Error in " +:+ child_name offending +:+ ": " +:+ str raised)) ∧
  context_after (execute self context) = left ∧
  invoked (trace (execute self context)) =
    seq 0 (length before + (if String.eqb (child_name offending) "part1" then 0 else 1)) ∧
  (∀ j, j ∈ invoked (trace (execute self context)) → j ≤ length before) ∧
  (∀ (other : SimpleCompositeInstruction.t) (behind : list Child),
     SimpleCompositeInstruction.instructions other = before ++ offending :: behind →
     execute other context = execute self context).
Proof.
  intros Hsplit Hbefore Hraises.
  destruct (run_from_invoked _ _ _ _ _ _ _ Hbefore) as [Hcalls _].
  assert (Hrun : ∀ behind,
            SimpleCompositeInstruction.run_from 0 (before ++ offending :: behind) [] context =
              (Raise (SimpleCompositeInstruction.wrapped offending raised), left,
               calls ++ (if String.eqb (child_name offending) "part1" then []
                         else [ChildInvoked (length before) reached]))).
  { intros behind.
    rewrite (run_from_app before (offending :: behind) _ _ _ _ _ _ Hbefore).
    cbn [SimpleCompositeInstruction.run_from]. rewrite Nat.add_0_l.
    destruct Hraises as [(Hname & -> & ->) | (Hname & Hexec)].
    - apply String.eqb_eq in Hname. rewrite Hname. reflexivity.
    - apply String.eqb_neq in Hname. rewrite Hname, Hexec. reflexivity. }
  assert (Hexecute : ∀ (other : SimpleCompositeInstruction.t) behind,
            SimpleCompositeInstruction.instructions other = before ++ offending :: behind →
            execute other context =
              {| returned := Return (failed (str (SimpleCompositeInstruction.wrapped
                                                    offending raised)));
                 context_after := left;
                 trace := HookInvoked ::
                          calls ++ (if String.eqb (child_name offending) "part1" then []
                                    else [ChildInvoked (length before) reached]) |}).
  { intros other behind Hother.
    apply (execute_composite other context
             (Raise (SimpleCompositeInstruction.wrapped offending raised))).
    rewrite Hother. apply Hrun. }
  rewrite (Hexecute self after Hsplit). cbn [returned context_after trace].
  assert (Hinvoked : invoked (HookInvoked ::
                       calls ++ (if String.eqb (child_name offending) "part1" then []
                                 else [ChildInvoked (length before) reached])) =
                     seq 0 (length before +
                            (if String.eqb (child_name offending) "part1" then 0 else 1))).
  { rewrite invoked_hook, invoked_app, Hcalls.
    destruct (String.eqb (child_name offending) "part1").
    - rewrite app_nil_r, Nat.add_0_r. reflexivity.
    - rewrite invoked_child, seq_app. reflexivity. }
  split; [reflexivity |]. split; [reflexivity |]. split; [exact Hinvoked |]. split.
  - intros j Hj. rewrite Hinvoked in Hj. apply elem_of_seq in Hj.
    destruct (String.eqb (child_name offending) "part1"); lia.
  - intros other behind Hother. exact (Hexecute other behind Hother).
Qed.

Lemma composite_fails_fast_witness :
  returned (execute simulated_fixture sample_context) =
    Return (failed ("Error in " +:+ child_name (as_child (plain "part1")) +:+ ": " +:+
                    str (Exception "Simulated error in part1"))) ∧
  context_after (execute simulated_fixture sample_context) =
    simple_data "a" ∪ sample_context ∧
  invoked (trace (execute simulated_fixture sample_context)) =
    seq 0 (length [as_child (plain "a")] +
           (if String.eqb (child_name (as_child (plain "part1"))) "part1" then 0 else 1)) ∧
  (∀ j, j ∈ invoked (trace (execute simulated_fixture sample_context)) →
        j ≤ length [as_child (plain "a")]) ∧
  (∀ (other : SimpleCompositeInstruction.t) (behind : list Child),
     SimpleCompositeInstruction.instructions other =
       [as_child (plain "a")] ++ as_child (plain "part1") :: behind →
     execute other sample_context = execute simulated_fixture sample_context).
Proof.
  apply (composite_fails_fast simulated_fixture sample_context
           [as_child (plain "a")] [as_child (plain "c")] (as_child (plain "part1"))
           [completed (Mapping (simple_data "a"))]
           (simple_data "a" ∪ sample_context)
           [ChildInvoked 0 sample_context]
           (Exception "Simulated error in part1")
           (simple_data "a" ∪ sample_context)).
  - reflexivity.
  - reflexivity.
  - left. repeat split.
Defined.

(** A child whose invocation raises: the composite's error carries the
    child's name and the raised message, and the child behind it is not
    invoked. *)
Example composite_wraps_raised_failure :
  returned (execute (composite_of [as_child (plain "a"); raising_child "broken" "boom";
                                   as_child (plain "c")]) sample_context) =
    Return (failed "Error in broken: boom") ∧
  invoked (trace (execute (composite_of [as_child (plain "a"); raising_child "broken" "boom";
                                         as_child (plain "c")]) sample_context)) = [0; 1].
Proof. split; reflexivity. Qed.

(** C3, as stated, fails: the child named step is rejected by its
    validation and returns a [FAILED] result whose error is "Failed
    validation rule"; the composite's error names the child, and carries
    the message of the failed merge instead of the child's error. *)
Lemma composite_error_omits_child_error :
  returned (execute rejecting_child ∅) = Return (failed "Failed validation rule") ∧
  returned (execute (composite_of [as_child rejecting_child]) ∅) =
    Return (failed "Error in step: 'NoneType' object is not iterable") ∧
  contains "step" "Error in step: 'NoneType' object is not iterable" = true ∧
  contains "Failed validation rule" "Error in step: 'NoneType' object is not iterable" = false.
Proof. repeat split; reflexivity. Qed.

Section Threading.

Local Abbreviation run_from := SimpleCompositeInstruction.run_from.

Lemma contexts_seen_hook (events : Trace) :
  contexts_seen (HookInvoked :: events) = contexts_seen events.
Proof. reflexivity. Qed.

Lemma contexts_seen_child index context (events : Trace) :
  contexts_seen (ChildInvoked index context :: events) = context :: contexts_seen events.
Proof. reflexivity. Qed.

Lemma run_from_threads (instructions : list Child) index results context :
  Forall (fun c => child_name c ≠ "part1") instructions →
  Forall (fun c => ∀ ctx, child_succeeds c ctx) instructions →
  ∃ results' reached calls,
    run_from index instructions results context = (Return (results ++ results'), reached, calls) ∧
    threads instructions context results' (contexts_seen calls) reached.
Proof.
  revert index results context.
  induction instructions as [|instruction rest IH]; intros index results context Hnames Hok.
  - exists [], context, []. rewrite app_nil_r. split; [reflexivity | constructor].
  - inversion Hnames as [|? ? Hname Hnames']; subst.
    inversion Hok as [|? ? Hfirst Hok']; subst.
    specialize (Hfirst context). unfold child_succeeds in Hfirst.
    destruct (child_execute instruction context) as [[result|e] context1] eqn:Hexec;
      [| contradiction].
    destruct Hfirst as [_ [d Hdata]].
    destruct (IH (S index) (results ++ [result]) (d ∪ context1) Hnames' Hok')
      as (results' & reached & calls & Hrun & Hthreads).
    exists (result :: results'), reached, (ChildInvoked index context :: calls).
    split.
    + simpl. apply String.eqb_neq in Hname. rewrite Hname, Hexec, Hdata. simpl.
      rewrite Hrun, <- app_assoc. reflexivity.
    + rewrite contexts_seen_child. econstructor; eassumption.
Qed.

Lemma threads_length instructions context results seen final :
  threads instructions context results seen final →
  length results = length instructions ∧ length seen = length instructions.
Proof. induction 1; simpl; [split; reflexivity | lia]. Qed.

(** The child called next finds the data of the child before it. *)
Lemma threads_next instructions context results seen final :
  threads instructions context results seen final →
  ∀ j result d next,
    results !! j = Some result → data result = Mapping d →
    (seen ++ [final]) !! S j = Some next → d ⊆ next.
Proof.
  induction 1 as [|instruction rest context context1 result d results seen final
                    Hexec Hdata Hrest IH]; intros j r dj next Hr Hd Hnext.
  - discriminate.
  - destruct j as [|j]; simpl in Hr, Hnext.
    + injection Hr as <-. rewrite Hdata in Hd. injection Hd as <-.
      inversion Hrest; subst; simpl in Hnext; injection Hnext as <-;
        apply map_union_subseteq_l.
    + exact (IH j r dj next Hr Hd Hnext).
Qed.

Lemma threads_dom instructions context results seen final :
  threads instructions context results seen final →
  Forall keeps_keys instructions →
  ∀ later, later ∈ seen ++ [final] → dom context ⊆ dom later.
Proof.
  induction 1 as [|instruction rest context context1 result d results seen final
                    Hexec Hdata Hrest IH]; intros Hkeep later Hin.
  - simpl in Hin. apply list_elem_of_singleton in Hin as ->. reflexivity.
  - inversion Hkeep as [|? ? Hfirst Hkeep']; subst.
    simpl in Hin. apply elem_of_cons in Hin as [-> | Hin]; [reflexivity |].
    specialize (IH Hkeep' later Hin).
    pose proof (Hfirst context) as Hstep. rewrite Hexec in Hstep. simpl in Hstep.
    rewrite dom_union in IH.
    etrans; [exact Hstep |]. etrans; [| exact IH]. apply union_subseteq_r.
Qed.

(** Every later child finds the keys of every earlier child's data, as long
    as no child removes keys. *)
Lemma threads_keys instructions context results seen final :
  threads instructions context results seen final →
  Forall keeps_keys instructions →
  ∀ j k result d later,
    j < k → results !! j = Some result → data result = Mapping d →
    (seen ++ [final]) !! k = Some later → dom d ⊆ dom later.
Proof.
  induction 1 as [|instruction rest context context1 result d results seen final
                    Hexec Hdata Hrest IH]; intros Hkeep j k r dj later Hjk Hr Hd Hlater.
  - discriminate.
  - inversion Hkeep as [|? ? Hfirst Hkeep']; subst.
    destruct k as [|k]; [lia |]. simpl in Hlater.
    destruct j as [|j]; simpl in Hr.
    + injection Hr as <-. rewrite Hdata in Hd. injection Hd as <-.
      assert (Hin : later ∈ seen ++ [final]) by (eapply list_elem_of_lookup_2; eassumption).
      pose proof (threads_dom _ _ _ _ _ Hrest Hkeep' later Hin) as Hdom.
      rewrite dom_union in Hdom. etrans; [| exact Hdom]. apply union_subseteq_l.
    + apply (IH Hkeep' j k r dj later); [lia | assumption..].
Qed.

End Threading.

(** A run in which no child is named part1 and every child that is invoked
    succeeds on the context it is given goes through every child, and
    threads the context through them. *)
Lemma run_from_succeeding (instructions : list Child) index results context :
  ∀ outcome reached calls,
    SimpleCompositeInstruction.run_from index instructions results context =
      (outcome, reached, calls) →
    Forall (fun c => child_name c ≠ "part1") instructions →
    (∀ k child started,
       instructions !! k = Some child → contexts_seen calls !! k = Some started →
       child_succeeds child started) →
    ∃ new, outcome = Return (results ++ new) ∧
           threads instructions context new (contexts_seen calls) reached.
Proof.
  revert index results context.
  induction instructions as [|instruction rest IH];
    intros index results context outcome reached calls Hrun Hnames Hsucceeds;
    cbn [SimpleCompositeInstruction.run_from] in Hrun.
  - injection Hrun as <- <- <-. exists []. rewrite app_nil_r. split; [reflexivity | constructor].
  - inversion Hnames as [|? ? Hname Hnames']; subst.
    apply String.eqb_neq in Hname. rewrite Hname in Hrun.
    assert (Hfirst : ∀ calls', calls = ChildInvoked index context :: calls' →
                               child_succeeds instruction context).
    { intros calls' ->. apply (Hsucceeds 0); reflexivity. }
    unfold child_succeeds in Hfirst.
    destruct (child_execute instruction context) as [[result|e] context1] eqn:Hexec.
    + destruct (dict_update context1 (data result)) as [context2|e] eqn:Hupdate.
      * destruct (SimpleCompositeInstruction.run_from (S index) rest (results ++ [result])
                    context2) as [[outcome0 context3] calls0] eqn:Hrest.
        injection Hrun as <- <- <-.
        destruct (Hfirst calls0 eq_refl) as [_ [d Hdata]].
        rewrite Hdata in Hupdate. cbn [dict_update] in Hupdate. injection Hupdate as <-.
        destruct (IH _ _ _ _ _ _ Hrest Hnames') as (new & -> & Hthreads).
        { intros k child started Hk Hseen. apply (Hsucceeds (S k)); assumption. }
        exists (result :: new). rewrite <- app_assoc. split; [reflexivity |].
        rewrite contexts_seen_child. econstructor; eassumption.
      * injection Hrun as <- <- <-.
        destruct (Hfirst [] eq_refl) as [_ [d Hdata]].
        rewrite Hdata in Hupdate. discriminate.
    + injection Hrun as <- <- <-. destruct (Hfirst [] eq_refl).
Qed.

(** C4 (amended): in a composite none of whose children is named part1 and
    each of whose children, called in its turn, returns a [COMPLETED]
    result with mapping data, every child is invoked, in order; each
    child's data is merged into the shared context after the child
    completes, so the next child finds that data in its context and every
    later child is called with the context into which the data of all
    earlier children has been merged in order, a later value replacing an
    earlier one under the same key; the composite's result is [COMPLETED]
    and holds the children's results. *)
Theorem composite_threads_context (self : SimpleCompositeInstruction.t) (context : Context) :
  Forall (fun c => child_name c ≠ "part1") (SimpleCompositeInstruction.instructions self) →
  (∀ k child started,
     SimpleCompositeInstruction.instructions self !! k = Some child →
     contexts_seen (trace (execute self context)) !! k = Some started →
     child_succeeds child started) →
  ∃ results : list InstructionResult,
    let run := execute self context in
    let seen := contexts_seen (trace run) ++ [context_after run] in
    returned run = Return (completed (Sequence results)) ∧
    length results = length (SimpleCompositeInstruction.instructions self) ∧
    invoked (trace run) = seq 0 (length (SimpleCompositeInstruction.instructions self)) ∧
    threads (SimpleCompositeInstruction.instructions self) context results
      (contexts_seen (trace run)) (context_after run) ∧
    (∀ j result d next,
       results !! j = Some result → data result = Mapping d →
       seen !! S j = Some next → d ⊆ next).
Proof.
  intros Hnames Hsucceeds.
  destruct (SimpleCompositeInstruction.run_from 0
              (SimpleCompositeInstruction.instructions self) [] context)
    as [[outcome reached] calls] eqn:Hrun.
  rewrite (execute_composite self context _ _ _ Hrun) in Hsucceeds.
  cbn [trace] in Hsucceeds. rewrite contexts_seen_hook in Hsucceeds.
  destruct (run_from_succeeding _ _ _ _ _ _ _ Hrun Hnames Hsucceeds)
    as (results & -> & Hthreads).
  simpl in Hrun.
  exists results. cbv zeta.
  rewrite (execute_composite self context _ _ _ Hrun). cbn [returned trace context_after].
  rewrite invoked_hook, contexts_seen_hook.
  destruct (run_from_invoked _ _ _ _ _ _ _ Hrun) as [Hcalls _].
  destruct (threads_length _ _ _ _ _ Hthreads) as [Hlen _].
  split; [reflexivity |]. split; [exact Hlen |]. split; [exact Hcalls |].
  split; [exact Hthreads |].
  exact (threads_next _ _ _ _ _ Hthreads).
Qed.

(** The second child of the fixture is valid only because the first child's
    data has been merged into the context. *)
Lemma composite_threads_context_witness :
  ∃ results : list InstructionResult,
    let run := execute dependent_fixture ∅ in
    let seen := contexts_seen (trace run) ++ [context_after run] in
    returned run = Return (completed (Sequence results)) ∧
    length results = length (SimpleCompositeInstruction.instructions dependent_fixture) ∧
    invoked (trace run) =
      seq 0 (length (SimpleCompositeInstruction.instructions dependent_fixture)) ∧
    threads (SimpleCompositeInstruction.instructions dependent_fixture) ∅ results
      (contexts_seen (trace run)) (context_after run) ∧
    (∀ j result d next,
       results !! j = Some result → data result = Mapping d →
       seen !! S j = Some next → d ⊆ next).
Proof.
  apply (composite_threads_context dependent_fixture ∅).
  - constructor; [discriminate |]. constructor; [discriminate | constructor].
  - change (contexts_seen (trace (execute dependent_fixture ∅)))
      with [(∅ : Context); simple_data "first" ∪ ∅].
    intros [|[|k]] child started Hk Hseen; simpl in Hk, Hseen; try discriminate.
    + injection Hk as <-. injection Hseen as <-.
      unfold child_succeeds. simpl. split; [reflexivity | eexists; reflexivity].
    + injection Hk as <-. injection Hseen as <-.
      unfold child_succeeds. simpl. split; [reflexivity | eexists; reflexivity].
Defined.

(** Called on a context without the key, the second child of the fixture
    is rejected by its rule. *)
Example dependent_child_alone :
  returned (execute (SimpleInstruction.add_validation_rule
                       (SimpleInstruction.__init__ "second" "Second") (needs_key "name")) ∅) =
    Return (failed "Failed validation rule").
Proof. reflexivity. Qed.

(** C4, as stated, fails in three ways.  On the composite of
    [test_execution_order] both children succeed when executed, the first
    is named part1, and the composite's result is [FAILED] without any
    child having been invoked.  A child that is itself a composite
    succeeds with the list of its results as data, which cannot be merged:
    the outer composite fails.  And where two children write the same key
    the third child does not find the first child's output: it is called
    with the second child's name under the key name. *)
Lemma composite_part1_fails :
  returned (execute (plain "part1") sample_context) =
    Return (completed (Mapping {[ "name" := VStr "part1"; "result" := VStr "success" ]})) ∧
  returned (execute (plain "part2") sample_context) =
    Return (completed (Mapping {[ "name" := VStr "part2"; "result" := VStr "success" ]})) ∧
  returned (execute part1_fixture sample_context) =
    Return (failed "Error in part1: Simulated error in part1") ∧
  invoked (trace (execute part1_fixture sample_context)) = [] ∧
  returned (execute (composite_of [as_child (plain "a")]) sample_context) =
    Return (completed (Sequence [completed (Mapping (simple_data "a"))])) ∧
  returned (execute (composite_of [as_child (composite_of [as_child (plain "a")]);
                                   as_child (plain "b")]) sample_context) =
    Return (failed ("Error in composite: " +:+
                    "cannot convert dictionary update sequence element #0 to a sequence")) ∧
  simple_data "a" !! "name" = Some (VStr "a") ∧
  (contexts_seen (trace (execute (composite_of [as_child (plain "a"); as_child (plain "b");
                                                as_child (plain "c")]) sample_context)) !! 2)
    ≫= (fun third => third !! "name") = Some (VStr "b").
Proof. repeat split; reflexivity. Qed.

(** ** Conditional *)

Section Conditional.

Local Abbreviation select_from := ConditionalInstructionTest.select_from.

Lemma select_from_skip (before rest : list (Condition * Child)) index context :
  Forall (fun pair : Condition * Child => pair.1 context = Return false) before →
  select_from index (before ++ rest) context =
    let '(outcome, context', calls) := select_from (index + length before) rest context in
    (outcome, context', (ConditionEvaluated <$> seq index (length before)) ++ calls).
Proof.
  revert index. induction before as [|[condition instruction] before IH]; intros index Hall.
  - simpl. rewrite Nat.add_0_r.
    destruct (select_from index rest context) as [[? ?] ?]. reflexivity.
  - inversion Hall as [|? ? Hfirst Hrest]; subst. simpl in Hfirst.
    simpl. rewrite Hfirst, (IH (S index) Hrest), <- Nat.add_succ_comm.
    destruct (select_from (S index + length before) rest context) as [[? ?] ?].
    reflexivity.
Qed.

Lemma execute_conditional (self : ConditionalInstructionTest.t) (context : Context)
    outcome context' calls :
  select_from 0 (ConditionalInstructionTest.conditions self) context = (outcome, context', calls) →
  execute self context =
    {| returned := Return (match outcome with
                           | Return d => completed d
                           | Raise e => failed (str e)
                           end);
       context_after := context'; trace := HookInvoked :: calls |}.
Proof.
  intros Hrun.
  apply (execute_body self context SimpleInstruction.valid [] outcome context' calls);
    [reflexivity | reflexivity | exact Hrun].
Qed.

Lemma invoked_conditions (indices : list nat) :
  invoked (ConditionEvaluated <$> indices) = [].
Proof. induction indices as [|i indices IH]; [reflexivity | exact IH]. Qed.

End Conditional.

(** C5: the predicates of a conditional instruction are evaluated in
    registration order.  When the predicates before a pair all return
    false and the pair's predicate returns true, the pair's instruction is
    the one branch that is executed and [execute] returns its data wrapped
    under the key result; when every predicate returns false, [execute]
    returns a [FAILED] result whose error is "No matching condition found"
    and no branch is executed. *)
Theorem conditional_first_match (self : ConditionalInstructionTest.t) (context : Context) :
  (∀ before condition instruction after result context1,
     ConditionalInstructionTest.conditions self = before ++ (condition, instruction) :: after →
     Forall (fun pair : Condition * Child => pair.1 context = Return false) before →
     condition context = Return true →
     child_execute instruction context = (Return result, context1) →
     returned (execute self context) =
       Return (completed (Mapping {[ "result" := data_value (data result) ]})) ∧
     trace (execute self context) =
       HookInvoked :: (ConditionEvaluated <$> seq 0 (S (length before))) ++
                      [ChildInvoked (length before) context] ∧
     invoked (trace (execute self context)) = [length before]) ∧
  (Forall (fun pair : Condition * Child => pair.1 context = Return false)
     (ConditionalInstructionTest.conditions self) →
   returned (execute self context) = Return (failed "No matching condition found") ∧
   trace (execute self context) =
     HookInvoked :: (ConditionEvaluated <$>
                       seq 0 (length (ConditionalInstructionTest.conditions self))) ∧
   invoked (trace (execute self context)) = []).
Proof.
  split.
  - intros before condition instruction after result context1 Hsplit Hbefore Htrue Hexec.
    pose proof (select_from_skip before ((condition, instruction) :: after) 0 context Hbefore)
      as Hrun.
    rewrite <- Hsplit in Hrun. simpl in Hrun. rewrite Htrue, Hexec in Hrun.
    rewrite (execute_conditional self context _ _ _ Hrun). cbn [returned trace].
    split; [reflexivity |].
    rewrite seq_S, fmap_app, <- app_assoc. simpl.
    split; [reflexivity |].
    rewrite ?invoked_hook, invoked_app, invoked_conditions. reflexivity.
  - intros Hnone.
    pose proof (select_from_skip (ConditionalInstructionTest.conditions self) [] 0 context Hnone)
      as Hrun.
    rewrite app_nil_r in Hrun. simpl in Hrun.
    rewrite (execute_conditional self context _ _ _ Hrun). cbn [returned trace].
    rewrite app_nil_r, invoked_hook, invoked_conditions.
    repeat split; reflexivity.
Qed.

Lemma conditional_first_match_witness :
  (returned (execute branch_fixture sample_context) =
     Return (completed (Mapping {[ "result" :=
       data_value (Mapping {[ "name" := VStr "else"; "result" := VStr "success" ]}) ]})) ∧
   trace (execute branch_fixture sample_context) =
     HookInvoked :: (ConditionEvaluated <$> seq 0 2) ++ [ChildInvoked 1 sample_context] ∧
   invoked (trace (execute branch_fixture sample_context)) = [1]) ∧
  (returned (execute no_match_fixture sample_context) =
     Return (failed "No matching condition found") ∧
   trace (execute no_match_fixture sample_context) =
     HookInvoked :: (ConditionEvaluated <$> seq 0 2) ∧
   invoked (trace (execute no_match_fixture sample_context)) = []).
Proof.
  split.
  - apply (proj1 (conditional_first_match branch_fixture sample_context)
             [(false_condition, as_child (plain "then"))]
             true_condition (as_child (plain "else")) []
             (completed (Mapping {[ "name" := VStr "else"; "result" := VStr "success" ]}))
             sample_context).
    + reflexivity.
    + constructor; [reflexivity | constructor].
    + reflexivity.
    + reflexivity.
  - apply (proj2 (conditional_first_match no_match_fixture sample_context)).
    constructor; [reflexivity |]. constructor; [reflexivity | constructor].
Defined.

(** C6: when the predicates before a pair all return false and the pair's
    predicate raises, the later predicates are not evaluated, no branch is
    executed, and [execute] returns a [FAILED] result carrying the raised
    failure's message. *)
Theorem conditional_predicate_raises (self : ConditionalInstructionTest.t) (context : Context)
    (before after : list (Condition * Child)) (condition : Condition) (instruction : Child)
    (e : PyException) :
  ConditionalInstructionTest.conditions self = before ++ (condition, instruction) :: after →
  Forall (fun pair : Condition * Child => pair.1 context = Return false) before →
  condition context = Raise e →
  returned (execute self context) = Return (failed (str e)) ∧
  trace (execute self context) =
    HookInvoked :: (ConditionEvaluated <$> seq 0 (S (length before))) ∧
  invoked (trace (execute self context)) = [].
Proof.
  intros Hsplit Hbefore Hraise.
  pose proof (select_from_skip before ((condition, instruction) :: after) 0 context Hbefore)
    as Hrun.
  rewrite <- Hsplit in Hrun. simpl in Hrun. rewrite Hraise in Hrun.
  rewrite (execute_conditional self context _ _ _ Hrun). cbn [returned trace].
  split; [reflexivity |].
  rewrite seq_S, fmap_app. simpl.
  split; [reflexivity |].
  rewrite ?invoked_hook, invoked_app, invoked_conditions. reflexivity.
Qed.

Lemma conditional_predicate_raises_witness :
  returned (execute raising_fixture sample_context) = Return (failed "condition failed") ∧
  trace (execute raising_fixture sample_context) =
    HookInvoked :: (ConditionEvaluated <$> seq 0 2) ∧
  invoked (trace (execute raising_fixture sample_context)) = [].
Proof.
  apply (conditional_predicate_raises raising_fixture sample_context
           [(false_condition, as_child (plain "then"))]
           [(true_condition, as_child (plain "else"))]
           raising_condition (as_child (plain "broken")) (Exception "condition failed")).
  - reflexivity.
  - constructor; [reflexivity | constructor].
  - reflexivity.
Defined.

(** ** Parallel *)

Section Parallel.

Local Abbreviation gather := SimpleParallelInstruction.gather.
Local Abbreviation successful_results := SimpleParallelInstruction.successful_results.
Local Abbreviation failed_results := SimpleParallelInstruction.failed_results.

(** [gather] runs every task, and hands back one entry per task, at the
    task's position: the outcome of the task on the context it was started
    with. *)
Lemma gather_entries (tasks : list Child) index context :
  ∀ entries context' calls,
    gather index tasks context = (entries, context', calls) →
    length entries = length tasks ∧
    invoked calls = seq index (length tasks) ∧
    ∀ k task started,
      tasks !! k = Some task → contexts_seen calls !! k = Some started →
      entries !! k = Some (child_execute task started).1.
Proof.
  revert index context. induction tasks as [|task rest IH];
    intros index context entries context' calls Hrun; simpl in Hrun.
  - injection Hrun as <- <- <-. repeat split. intros k task started Hk. discriminate.
  - destruct (child_execute task context) as [entry context1] eqn:Hexec.
    destruct (gather (S index) rest context1) as [[entries0 context2] calls0] eqn:Hrest.
    injection Hrun as <- <- <-.
    destruct (IH _ _ _ _ _ Hrest) as (Hlen & Hcalls & Hat).
    split; [simpl; lia |]. split.
    + rewrite invoked_child, Hcalls. reflexivity.
    + intros [|k] t started Hk Hseen; simpl in Hk; rewrite contexts_seen_child in Hseen;
        simpl in Hseen.
      * injection Hk as <-. injection Hseen as <-. rewrite Hexec. reflexivity.
      * exact (Hat k t started Hk Hseen).
Qed.

Lemma partition_lengths (entries : list (Raises InstructionResult)) :
  length (successful_results entries) + length (failed_results entries) = length entries.
Proof.
  induction entries as [|[result|e] entries IH]; simpl; [reflexivity | |];
    unfold successful_results, failed_results in *; simpl; lia.
Qed.

Lemma successful_results_lookup (entries : list (Raises InstructionResult)) :
  failed_results entries = [] →
  ∀ k entry, entries !! k = Some entry →
    ∃ result, entry = Return result ∧ successful_results entries !! k = Some (data result).
Proof.
  induction entries as [|[result|e] entries IH]; intros Hnone k entry Hk.
  - discriminate.
  - destruct k as [|k]; simpl in Hk.
    + injection Hk as <-. exists result. split; reflexivity.
    + exact (IH Hnone k entry Hk).
  - discriminate.
Qed.

Lemma failed_results_none (entries : list (Raises InstructionResult)) :
  Forall (fun entry => ∃ result, entry = Return result ∧ status result = COMPLETED) entries →
  failed_results entries = [].
Proof.
  induction 1 as [|entry entries (result & -> & _) _ IH]; [reflexivity | exact IH].
Qed.

Lemma failed_results_elem (entries : list (Raises InstructionResult)) (message : string) :
  message ∈ failed_results entries ↔ ∃ e, Raise e ∈ entries ∧ message = str e.
Proof.
  unfold failed_results. rewrite list_elem_of_omap. split.
  - intros ([result|e] & Hin & Heq); [discriminate |].
    injection Heq as <-. exists e. split; [exact Hin | reflexivity].
  - intros (e & Hin & ->). exists (Raise e). split; [exact Hin | reflexivity].
Qed.

Lemma execute_parallel (self : SimpleParallelInstruction.t) (context : Context)
    entries context' calls :
  gather 0 (SimpleParallelInstruction.launched self) context = (entries, context', calls) →
  execute self context =
    {| returned :=
         Return (match failed_results entries with
                 | [] => completed (Mapping {[ "results" :=
                           VList (data_value <$> successful_results entries) ]})
                 | failures =>
                     failed ("One or more instructions failed: " +:+ String.concat ", " failures)
                 end);
       context_after := context'; trace := HookInvoked :: calls |}.
Proof.
  intros Hrun.
  rewrite (execute_body self context SimpleInstruction.valid []
             (match failed_results entries with
              | [] => Return (Mapping {[ "results" :=
                        VList (data_value <$> successful_results entries) ]})
              | failures =>
                  Raise (Exception ("One or more instructions failed: " +:+
                                    String.concat ", " failures))
              end) context' calls); try reflexivity.
  - destruct (failed_results entries); reflexivity.
  - cbn [_execute_impl SimpleParallelInstruction_advanced].
    unfold SimpleParallelInstruction._execute_impl. rewrite Hrun.
    destruct (SimpleParallelInstruction.failed_results entries); reflexivity.
Qed.

End Parallel.

(** C7: when every launched child of a parallel instruction returns a
    [COMPLETED] result, [execute] returns a [COMPLETED] result whose data
    maps results to a sequence with one entry per launched child, in launch
    order: the entry at a child's position is the data of that child's own
    result. *)
Theorem parallel_results_in_launch_order
    (self : SimpleParallelInstruction.t) (context : Context) :
  Forall (fun entry => ∃ result, entry = Return result ∧ status result = COMPLETED)
         (launched_outcomes self context) →
  ∃ results : list Value,
    returned (execute self context) =
      Return (completed (Mapping {[ "results" := VList results ]})) ∧
    length results = length (SimpleParallelInstruction.launched self) ∧
    invoked (trace (execute self context)) =
      seq 0 (length (SimpleParallelInstruction.launched self)) ∧
    ∀ k child started,
      SimpleParallelInstruction.launched self !! k = Some child →
      contexts_seen (trace (execute self context)) !! k = Some started →
      ∃ result,
        (child_execute child started).1 = Return result ∧
        status result = COMPLETED ∧
        results !! k = Some (data_value (data result)).
Proof.
  unfold launched_outcomes. intros Hall.
  destruct (SimpleParallelInstruction.gather 0 (SimpleParallelInstruction.launched self) context)
    as [[entries context'] calls] eqn:Hrun.
  simpl in Hall.
  destruct (gather_entries _ _ _ _ _ _ Hrun) as (Hlen & Hcalls & Hat).
  pose proof (failed_results_none entries Hall) as Hnone.
  pose proof (partition_lengths entries) as Hparts. rewrite Hnone in Hparts. simpl in Hparts.
  rewrite (execute_parallel self context _ _ _ Hrun), Hnone. cbn [returned trace].
  rewrite invoked_hook, contexts_seen_hook.
  exists (data_value <$> SimpleParallelInstruction.successful_results entries).
  split; [reflexivity |]. split; [rewrite length_fmap; lia |]. split; [exact Hcalls |].
  intros k child started Hk Hseen.
  pose proof (Hat k child started Hk Hseen) as Hentry.
  destruct (successful_results_lookup entries Hnone k _ Hentry) as (result & Hres & Hdata).
  exists result. split; [exact Hres |]. split.
  - rewrite Forall_lookup in Hall.
    destruct (Hall k _ Hentry) as (result' & Heq & Hstatus). congruence.
  - rewrite list_lookup_fmap, Hdata. reflexivity.
Qed.

Lemma parallel_results_in_launch_order_witness :
  ∃ results : list Value,
    returned (execute parallel_fixture sample_context) =
      Return (completed (Mapping {[ "results" := VList results ]})) ∧
    length results = length (SimpleParallelInstruction.launched parallel_fixture) ∧
    invoked (trace (execute parallel_fixture sample_context)) =
      seq 0 (length (SimpleParallelInstruction.launched parallel_fixture)) ∧
    ∀ k child started,
      SimpleParallelInstruction.launched parallel_fixture !! k = Some child →
      contexts_seen (trace (execute parallel_fixture sample_context)) !! k = Some started →
      ∃ result,
        (child_execute child started).1 = Return result ∧
        status result = COMPLETED ∧
        results !! k = Some (data_value (data result)).
Proof.
  apply (parallel_results_in_launch_order parallel_fixture sample_context).
  constructor; [eexists; split; reflexivity |].
  constructor; [eexists; split; reflexivity | constructor].
Defined.

(** C8 does not hold of the code.  The loop that its comment announces as
    separating successful and failed results sorts the entries by their
    type only: an entry that is an [InstructionResult] counts as
    successful whatever its status.  Here the second launched child is
    rejected by its validation and returns a [FAILED] result; the parallel
    instruction's result is [COMPLETED], with the absent data of the
    failed child among its results, where C8 asks for a [FAILED] result
    that lists the failure. *)
Lemma parallel_failed_child_completes :
  returned (execute rejecting_child sample_context) =
    Return (failed "Failed validation rule") ∧
  returned (execute rejected_fixture sample_context) =
    Return (completed (Mapping {[ "results" :=
      VList [VDict {[ "name" := VStr "part1"; "result" := VStr "success" ]}; VNone] ]})).
Proof. split; reflexivity. Qed.

(** When launched invocations raise, the error lists the message of each
    one, in launch order. *)
Example parallel_lists_every_raised_failure :
  returned (execute both_raise_fixture sample_context) =
    Return (failed "One or more instructions failed: left failed, right failed").
Proof. reflexivity. Qed.

(** C10: a parallel instruction with two or more children executes exactly
    the children at positions 0 and 1, once each and in that order: the
    entries it sorts are the outcomes of these two children's own
    [execute], the second called on the context the first left, and the
    context it leaves is the one the second left.  No child at a later
    position is invoked and nothing about the call depends on the children
    behind the first two; the results of a [COMPLETED] result have length
    2. *)
Theorem parallel_launches_first_two
    (self : SimpleParallelInstruction.t) (context : Context)
    (first second : Child) (behind : list Child) :
  SimpleParallelInstruction.instructions self = first :: second :: behind →
  let '(outcome0, context1) := child_execute first context in
  let '(outcome1, context2) := child_execute second context1 in
  SimpleParallelInstruction.launched self = [first; second] ∧
  launched_outcomes self context = [outcome0; outcome1] ∧
  trace (execute self context) =
    [HookInvoked; ChildInvoked 0 context; ChildInvoked 1 context1] ∧
  invoked (trace (execute self context)) = [0; 1] ∧
  (∀ j, 2 ≤ j → j ∉ invoked (trace (execute self context))) ∧
  context_after (execute self context) = context2 ∧
  returned (execute self context) =
    Return (match outcome0, outcome1 with
            | Return result0, Return result1 =>
                completed (Mapping {[ "results" :=
                  VList [data_value (data result0); data_value (data result1)] ]})
            | Raise e0, Raise e1 =>
                failed ("One or more instructions failed: " +:+
                        String.concat ", " [str e0; str e1])
            | Raise e, Return _ | Return _, Raise e =>
                failed ("One or more instructions failed: " +:+ String.concat ", " [str e])
            end) ∧
  (∀ result, returned (execute self context) = Return result → status result = COMPLETED →
     ∃ results : list Value,
       data result = Mapping {[ "results" := VList results ]} ∧ length results = 2) ∧
  (∀ (other : SimpleParallelInstruction.t) (others : list Child),
     SimpleParallelInstruction.instructions other = first :: second :: others →
     execute other context = execute self context).
Proof.
  intros Hsplit.
  destruct (child_execute first context) as [outcome0 context1] eqn:Hfirst.
  destruct (child_execute second context1) as [outcome1 context2] eqn:Hsecond.
  assert (Hgather : ∀ (other : SimpleParallelInstruction.t) others,
            SimpleParallelInstruction.instructions other = first :: second :: others →
            SimpleParallelInstruction.gather 0 (SimpleParallelInstruction.launched other)
              context =
              ([outcome0; outcome1], context2,
               [ChildInvoked 0 context; ChildInvoked 1 context1])).
  { intros other others Hother. unfold SimpleParallelInstruction.launched.
    rewrite Hother. cbn [take SimpleParallelInstruction.gather].
    rewrite Hfirst, Hsecond. reflexivity. }
  assert (Hexecute : ∀ (other : SimpleParallelInstruction.t) others,
            SimpleParallelInstruction.instructions other = first :: second :: others →
            execute other context =
              {| returned :=
                   Return (match SimpleParallelInstruction.failed_results
                                   [outcome0; outcome1] with
                           | [] => completed (Mapping {[ "results" :=
                                     VList (data_value <$>
                                       SimpleParallelInstruction.successful_results
                                         [outcome0; outcome1]) ]})
                           | failures =>
                               failed ("One or more instructions failed: " +:+
                                       String.concat ", " failures)
                           end);
                 context_after := context2;
                 trace := [HookInvoked; ChildInvoked 0 context; ChildInvoked 1 context1] |}).
  { intros other others Hother.
    exact (execute_parallel other context _ _ _ (Hgather other others Hother)). }
  rewrite (Hexecute self behind Hsplit). cbn [returned context_after trace].
  split; [unfold SimpleParallelInstruction.launched; rewrite Hsplit; reflexivity |].
  split; [unfold launched_outcomes; rewrite (Hgather self behind Hsplit); reflexivity |].
  split; [reflexivity |]. split; [reflexivity |]. split.
  { intros j Hj Hin. change (j ∈ [0; 1]) in Hin.
    apply elem_of_cons in Hin as [-> | Hin]; [lia |].
    apply list_elem_of_singleton in Hin as ->. lia. }
  split; [reflexivity |]. split.
  { destruct outcome0, outcome1; reflexivity. }
  split.
  - intros result Hret Hstatus. injection Hret as <-.
    destruct outcome0, outcome1; try discriminate.
    eexists. split; reflexivity.
  - intros other others Hother. exact (Hexecute other others Hother).
Qed.

Lemma parallel_launches_first_two_witness :
  let '(outcome0, context1) := child_execute (as_child (plain "part1")) sample_context in
  let '(outcome1, context2) := child_execute (as_child (plain "part2")) context1 in
  SimpleParallelInstruction.launched three_fixture =
    [as_child (plain "part1"); as_child (plain "part2")] ∧
  launched_outcomes three_fixture sample_context = [outcome0; outcome1] ∧
  trace (execute three_fixture sample_context) =
    [HookInvoked; ChildInvoked 0 sample_context; ChildInvoked 1 context1] ∧
  invoked (trace (execute three_fixture sample_context)) = [0; 1] ∧
  (∀ j, 2 ≤ j → j ∉ invoked (trace (execute three_fixture sample_context))) ∧
  context_after (execute three_fixture sample_context) = context2 ∧
  returned (execute three_fixture sample_context) =
    Return (match outcome0, outcome1 with
            | Return result0, Return result1 =>
                completed (Mapping {[ "results" :=
                  VList [data_value (data result0); data_value (data result1)] ]})
            | Raise e0, Raise e1 =>
                failed ("One or more instructions failed: " +:+
                        String.concat ", " [str e0; str e1])
            | Raise e, Return _ | Return _, Raise e =>
                failed ("One or more instructions failed: " +:+ String.concat ", " [str e])
            end) ∧
  (∀ result, returned (execute three_fixture sample_context) = Return result →
     status result = COMPLETED →
     ∃ results : list Value,
       data result = Mapping {[ "results" := VList results ]} ∧ length results = 2) ∧
  (∀ (other : SimpleParallelInstruction.t) (others : list Child),
     SimpleParallelInstruction.instructions other =
       as_child (plain "part1") :: as_child (plain "part2") :: others →
     execute other sample_context = execute three_fixture sample_context).
Proof.
  apply (parallel_launches_first_two three_fixture sample_context
           (as_child (plain "part1")) (as_child (plain "part2")) [as_child (plain "part3")]).
  reflexivity.
Defined.

(** ** Iterative *)

Section Iterative.

Local Abbreviation iterate := IterativeInstruction.iterate.

Lemma iterations_run_body iteration context (events : Trace) :
  iterations_run (BodyExecuted iteration context :: events) = iteration :: iterations_run events.
Proof. reflexivity. Qed.

Lemma iterate_runs (budget : nat) (self : IterativeInstruction.t) :
  ∀ iteration history context history' context' runs,
    iterate budget self iteration history context = (history', context', runs) →
    ∃ m,
      iterations_run runs = seq iteration m ∧
      m ≤ budget ∧
      (0 < budget → 1 ≤ m) ∧
      ((∀ k outcome, IterativeInstruction.should_stop self k outcome = false) →
       Z.of_nat (iteration + budget) = IterativeInstruction.max_iterations self →
       m = budget).
Proof.
  induction budget as [|budget IH];
    intros iteration history context history' context' runs Hrun;
    cbn [IterativeInstruction.iterate] in Hrun; cbv zeta in Hrun.
  - injection Hrun as <- <- <-. exists 0. repeat split; try reflexivity; lia.
  - destruct (child_execute (IterativeInstruction.body self) context) as [outcome context1].
    destruct ((Z.of_nat (S iteration) =? IterativeInstruction.max_iterations self)%Z
              || IterativeInstruction.should_stop self (S iteration) outcome) eqn:Hstop.
    + injection Hrun as <- <- <-. exists 1. split; [reflexivity |].
      split; [lia |]. split; [lia |].
      intros Hnever Hmax. rewrite Hnever, orb_false_r in Hstop.
      apply Z.eqb_eq in Hstop. lia.
    + destruct (iterate budget self (S iteration) (history ++ [outcome]) context1)
        as [[history0 context2] runs0] eqn:Hrest.
      injection Hrun as <- <- <-.
      destruct (IH _ _ _ _ _ _ Hrest) as (m & Hruns & Hle & _ & Hexact).
      exists (S m). split; [rewrite iterations_run_body, Hruns; reflexivity |].
      split; [lia |]. split; [lia |].
      intros Hnever Hmax. rewrite (Hexact Hnever); [reflexivity | lia].
Qed.

Lemma execute_iterative (self : IterativeInstruction.t) (context : Context)
    history context' runs :
  iterate (Z.to_nat (IterativeInstruction.max_iterations self)) self 0 [] context =
    (history, context', runs) →
  trace (execute self context) = HookInvoked :: runs.
Proof.
  intros Hrun. unfold execute.
  cbn [_validate _execute_impl IterativeInstruction_advanced inherited_validate].
  unfold IterativeInstruction._execute_impl. rewrite Hrun. reflexivity.
Qed.

End Iterative.



(** ** The tests of the module, replayed *)

(** [test_execution_order]: the result is [FAILED] and its error contains
    the word error. *)
Example test_execution_order :
  ∃ result message,
    returned (execute part1_fixture sample_context) = Return result ∧
    status result = FAILED ∧ error result = Some message ∧
    contains "error" message = true.
Proof. do 2 eexists. repeat split; reflexivity. Qed.

(** [test_branch_selection]: a true condition completes, a false one fails
    with the no-match error. *)
Example test_branch_selection :
  returned (execute (conditional_of [(true_condition, as_child (plain "then"))]) sample_context) =
    Return (completed (Mapping {[ "result" :=
      VDict {[ "name" := VStr "then"; "result" := VStr "success" ]} ]})) ∧
  ∃ result message,
    returned (execute (conditional_of [(false_condition, as_child (plain "then"))])
                sample_context) = Return result ∧
    status result = FAILED ∧ error result = Some message ∧
    contains "No matching condition" message = true.
Proof. split; [reflexivity |]. do 2 eexists. repeat split; reflexivity. Qed.

(** [test_parallel_execution]: the data holds results, of length 2. *)
Example test_parallel_execution :
  ∃ result d results,
    returned (execute parallel_fixture sample_context) = Return result ∧
    data result = Mapping d ∧ d !! "results" = Some (VList results) ∧ length results = 2.
Proof. do 3 eexists. repeat split; reflexivity. Qed.

(** [test_iteration_limit]: with a maximum of 1 the body runs once. *)
Example test_iteration_limit :
  iterations_run
    (trace (execute {| IterativeInstruction.name := "iterative";
                       IterativeInstruction.description := "Iterative instruction";
                       IterativeInstruction.max_iterations := 1;
                       IterativeInstruction.body := as_child (plain "body");
                       IterativeInstruction.should_stop := fun _ _ => false |}
              sample_context)) = [0].
Proof. reflexivity. Qed.

(** A non-positive budget is refused by the constructor. *)
Example iterative_rejects_empty_budget :
  ∃ e, IterativeInstruction.__init__ "iterative" "Iterative instruction" 0
         (as_child (plain "body")) (fun _ _ => false) = Raise e.
Proof. eexists. reflexivity. Qed.

(** * Further properties of the instruction classes *)

(** ** SimpleInstruction *)

Lemma validate_from_shape (rules : list Rule) (index : nat) (context : Context) :
  let result := (SimpleInstruction.validate_from index rules context).1 in
  (is_valid result = true ∧ violations result = [] ∧ score result = 1%Q ∧
   Forall (fun rule : Rule => rule context = Return true) rules) ∨
  (is_valid result = false ∧ score result = 0%Q ∧
   ∃ violation, violations result = [violation] ∧
     ¬ Forall (fun rule : Rule => rule context = Return true) rules).
Proof.
  revert index. induction rules as [|rule rest IH]; intros index; simpl.
  - left. repeat split. constructor.
  - destruct (rule context) as [[|]|e] eqn:Hrule.
    + specialize (IH (S index)).
      destruct (SimpleInstruction.validate_from (S index) rest context) as [result checks].
      simpl in *. destruct IH as [(? & ? & ? & Hall) | (? & ? & violation & ? & Hnot)].
      * left. repeat split; try assumption. constructor; assumption.
      * right. repeat split; try assumption. exists violation. split; [assumption |].
        intros Hall. inversion Hall; subst. contradiction.
    + right. repeat split. eexists. split; [reflexivity |].
      intros Hall. inversion Hall; subst. congruence.
    + right. repeat split. eexists. split; [reflexivity |].
      intros Hall. inversion Hall; subst. congruence.
Qed.

Lemma validate_from_metrics (rules : list Rule) (index : nat) (context : Context) :
  metrics (SimpleInstruction.validate_from index rules context).1 = ∅.
Proof.
  revert index. induction rules as [|rule rest IH]; intros index; simpl; [reflexivity |].
  destruct (rule context) as [[|]|e]; try reflexivity.
  specialize (IH (S index)).
  destruct (SimpleInstruction.validate_from (S index) rest context). exact IH.
Qed.

(** X1: the result that [SimpleInstruction._validate] returns keeps the
    invariant of a validation result: it is valid exactly when it lists no
    violation, and exactly when every rule returns true on the context; it
    lists at most one violation, the score is 1 when valid and 0
    otherwise, and the metrics are empty. *)
Theorem simple_validate_invariant (self : SimpleInstruction.t) (context : Context)
    (result : ValidationResult) (checks : Trace) :
  SimpleInstruction._validate self context = (Return result, checks) →
  (is_valid result = true ↔ violations result = []) ∧
  length (violations result) ≤ 1 ∧
  score result = (if is_valid result then 1%Q else 0%Q) ∧
  metrics result = ∅ ∧
  (is_valid result = true ↔
   Forall (fun rule : Rule => rule context = Return true)
          (SimpleInstruction.validation_rules self)).
Proof.
  unfold SimpleInstruction._validate.
  pose proof (validate_from_shape (SimpleInstruction.validation_rules self) 0 context) as Hshape.
  pose proof (validate_from_metrics (SimpleInstruction.validation_rules self) 0 context)
    as Hmetrics.
  destruct (SimpleInstruction.validate_from 0 (SimpleInstruction.validation_rules self) context)
    as [result0 checks0].
  simpl in *. intros Hreturned. injection Hreturned as -> ->.
  destruct Hshape as [(Hvalid & Hnone & Hscore & Hall) | (Hvalid & Hscore & violation & Hone & Hnot)].
  - rewrite Hvalid, Hnone, Hscore. repeat split; auto.
  - rewrite Hvalid, Hone, Hscore. repeat split; auto; try discriminate.
Qed.

Lemma simple_validate_invariant_witness :
  (is_valid (SimpleInstruction.invalid "Failed validation rule") = true ↔
   violations (SimpleInstruction.invalid "Failed validation rule") = []) ∧
  length (violations (SimpleInstruction.invalid "Failed validation rule")) ≤ 1 ∧
  score (SimpleInstruction.invalid "Failed validation rule") =
    (if is_valid (SimpleInstruction.invalid "Failed validation rule") then 1%Q else 0%Q) ∧
  metrics (SimpleInstruction.invalid "Failed validation rule") = ∅ ∧
  (is_valid (SimpleInstruction.invalid "Failed validation rule") = true ↔
   Forall (fun rule : Rule => rule sample_context = Return true)
          (SimpleInstruction.validation_rules rules_fixture)).
Proof.
  apply (simple_validate_invariant rules_fixture sample_context
           (SimpleInstruction.invalid "Failed validation rule")
           [RuleEvaluated 0; RuleEvaluated 1]).
  reflexivity.
Defined.

(** X2: a [SimpleInstruction] completes exactly when every one of its rules
    returns true on the context; it then returns its name and the word
    success, after evaluating every rule once, in order, and before its
    body. *)
Theorem simple_completes_iff_rules_pass (self : SimpleInstruction.t) (context : Context) :
  ((∃ result, returned (execute self context) = Return result ∧ status result = COMPLETED) ↔
   Forall (fun rule : Rule => rule context = Return true)
          (SimpleInstruction.validation_rules self)) ∧
  (Forall (fun rule : Rule => rule context = Return true)
          (SimpleInstruction.validation_rules self) →
   returned (execute self context) =
     Return (completed (Mapping (simple_data (SimpleInstruction.name self)))) ∧
   trace (execute self context) =
     (RuleEvaluated <$> seq 0 (length (SimpleInstruction.validation_rules self))) ++
     [HookInvoked]).
Proof.
  assert (Hpass : Forall (fun rule : Rule => rule context = Return true)
                    (SimpleInstruction.validation_rules self) →
          execute self context =
            {| returned := Return (completed (Mapping (simple_data (SimpleInstruction.name self))));
               context_after := context;
               trace := (RuleEvaluated <$>
                           seq 0 (length (SimpleInstruction.validation_rules self))) ++
                        [HookInvoked] |}).
  { intros Hall. unfold execute. cbn [_validate _execute_impl SimpleInstruction_advanced].
    unfold SimpleInstruction._validate.
    rewrite (validate_from_passes _ 0 context Hall). reflexivity. }
  pose proof (validate_from_shape (SimpleInstruction.validation_rules self) 0 context) as Hshape.
  cbv zeta in Hshape.
  destruct Hshape as [(_ & _ & _ & Hall) | (Hvalid & _ & violation & Hone & Hnot)].
  - rewrite (Hpass Hall). cbn [returned trace].
    split; [| intros _; split; reflexivity].
    split; [intros _; exact Hall | intros _; eexists; split; reflexivity].
  - assert (Hfail : execute self context =
              {| returned := Return (failed (String.concat ", " [violation]));
                 context_after := context;
                 trace := (SimpleInstruction.validate_from 0
                             (SimpleInstruction.validation_rules self) context).2 |}).
    { unfold execute. cbn [_validate SimpleInstruction_advanced].
      unfold SimpleInstruction._validate.
      destruct (SimpleInstruction.validate_from 0
                  (SimpleInstruction.validation_rules self) context) as [result checks].
      simpl in *. rewrite Hvalid, Hone. reflexivity. }
    rewrite Hfail. cbn [returned trace].
    split; [| intros Hall; contradiction].
    split; [| intros Hall; contradiction].
    intros (result & Hret & Hstatus). injection Hret as <-. discriminate.
Qed.

Lemma validate_from_app (rules more : list Rule) (index : nat) (context : Context) :
  SimpleInstruction.validate_from index (rules ++ more) context =
    let '(result, checks) := SimpleInstruction.validate_from index rules context in
    if is_valid result then
      let '(result', checks') :=
        SimpleInstruction.validate_from (index + length rules) more context in
      (result', checks ++ checks')
    else (result, checks).
Proof.
  revert index. induction rules as [|rule rest IH]; intros index; simpl.
  - rewrite Nat.add_0_r.
    destruct (SimpleInstruction.validate_from index more context). reflexivity.
  - destruct (rule context) as [[|]|e]; try reflexivity.
    rewrite (IH (S index)), <- Nat.add_succ_comm.
    destruct (SimpleInstruction.validate_from (S index) rest context) as [result checks].
    destruct (is_valid result); [| reflexivity].
    destruct (SimpleInstruction.validate_from (S index + length rest) more context).
    reflexivity.
Qed.

(** X3: a rule added with [add_validation_rule] is evaluated after the rules
    already there.  When the instruction was already invalid on a context
    the added rule is not evaluated and the validation is unchanged; when
    it was valid, the added rule alone decides: the validation stays valid
    if the rule returns true, and reports the rule's violation if it
    returns false or raises. *)
Theorem add_validation_rule_runs_last
    (self : SimpleInstruction.t) (rule : Rule) (context : Context) :
  ∃ result checks,
    SimpleInstruction._validate self context = (Return result, checks) ∧
    SimpleInstruction._validate (SimpleInstruction.add_validation_rule self rule) context =
      if is_valid result then
        (Return (match rule context with
                 | Return true => SimpleInstruction.valid
                 | outcome => SimpleInstruction.invalid (violation_of outcome)
                 end),
         checks ++ [RuleEvaluated (length (SimpleInstruction.validation_rules self))])
      else (Return result, checks).
Proof.
  unfold SimpleInstruction._validate. cbn [SimpleInstruction.add_validation_rule
    SimpleInstruction.validation_rules].
  rewrite validate_from_app.
  destruct (SimpleInstruction.validate_from 0 (SimpleInstruction.validation_rules self) context)
    as [result checks].
  exists result, checks. split; [reflexivity |].
  destruct (is_valid result); [| reflexivity].
  simpl. destruct (rule context) as [[|]|e]; reflexivity.
Qed.

(** ** SimpleCompositeInstruction *)

Section CompositeRuns.

Local Abbreviation run_from := SimpleCompositeInstruction.run_from.

(** Whatever the outcome, the children invoked are an initial segment of the
    list, in order; a returning run has invoked them all. *)
Lemma run_from_prefix (instructions : list Child) index results context :
  ∀ outcome context' calls,
    run_from index instructions results context = (outcome, context', calls) →
    ∃ m, m ≤ length instructions ∧ invoked calls = seq index m ∧
         length (contexts_seen calls) = m ∧
         ((∃ all, outcome = Return all) → m = length instructions).
Proof.
  revert index results context.
  induction instructions as [|instruction rest IH];
    intros index results context outcome context' calls Hrun; simpl in Hrun.
  - injection Hrun as <- <- <-. exists 0. repeat split; reflexivity || lia.
  - destruct (String.eqb (child_name instruction) "part1").
    { injection Hrun as <- <- <-. exists 0. split; [simpl; lia |].
      split; [reflexivity |]. split; [reflexivity |]. intros [all Hall]. discriminate. }
    destruct (child_execute instruction context) as [[result|e] context1].
    + destruct (dict_update context1 (data result)) as [context2|e].
      * destruct (run_from (S index) rest (results ++ [result]) context2)
          as [[outcome0 context3] calls0] eqn:Hrest.
        injection Hrun as <- <- <-.
        destruct (IH _ _ _ _ _ _ Hrest) as (m & Hle & Hcalls & Hseen & Hall).
        exists (S m). split; [simpl; lia |].
        split; [rewrite invoked_child, Hcalls; reflexivity |].
        split; [rewrite contexts_seen_child; simpl; lia |].
        intros Hret. rewrite (Hall Hret). reflexivity.
      * injection Hrun as <- <- <-. exists 1. split; [simpl; lia |].
        split; [reflexivity |]. split; [reflexivity |]. intros [all Hall]. discriminate.
    + injection Hrun as <- <- <-. exists 1. split; [simpl; lia |].
      split; [reflexivity |]. split; [reflexivity |]. intros [all Hall]. discriminate.
Qed.

(** A returning run whose children all returned mapping data has threaded
    the context through every child. *)
Lemma run_from_returned (instructions : list Child) index results context :
  ∀ all reached calls,
    run_from index instructions results context = (Return all, reached, calls) →
    ∃ new, all = results ++ new ∧
           length new = length instructions ∧
           (Forall (fun result => ∃ d, data result = Mapping d) new →
            threads instructions context new (contexts_seen calls) reached).
Proof.
  revert index results context.
  induction instructions as [|instruction rest IH];
    intros index results context all reached calls Hrun; simpl in Hrun.
  - injection Hrun as <- <- <-. exists []. rewrite app_nil_r.
    split; [reflexivity |]. split; [reflexivity |]. intros _. constructor.
  - destruct (String.eqb (child_name instruction) "part1"); [discriminate |].
    destruct (child_execute instruction context) as [[result|e] context1] eqn:Hexec;
      [| discriminate].
    destruct (dict_update context1 (data result)) as [context2|e] eqn:Hupdate;
      [| discriminate].
    destruct (run_from (S index) rest (results ++ [result]) context2)
      as [[outcome0 context3] calls0] eqn:Hrest.
    injection Hrun as -> <- <-.
    destruct (IH _ _ _ _ _ _ Hrest) as (new & -> & Hlen & Hthreads).
    exists (result :: new). rewrite <- app_assoc.
    split; [reflexivity |]. split; [simpl; lia |].
    intros Hall. inversion Hall as [|? ? [d Hdata] Hnew]; subst.
    rewrite Hdata in Hupdate. simpl in Hupdate. injection Hupdate as <-.
    rewrite contexts_seen_child. econstructor; [exact Hexec | exact Hdata | exact (Hthreads Hnew)].
Qed.

Lemma run_from_step (instruction : Child) (rest : list Child) index results context
    result context1 d :
  String.eqb (child_name instruction) "part1" = false →
  child_execute instruction context = (Return result, context1) →
  data result = Mapping d →
  run_from index (instruction :: rest) results context =
    let '(outcome, context', calls) :=
      run_from (S index) rest (results ++ [result]) (d ∪ context1) in
    (outcome, context', ChildInvoked index context :: calls).
Proof. intros Hname Hexec Hdata. simpl. rewrite Hname, Hexec, Hdata. reflexivity. Qed.

(** Children that are [SimpleInstruction]s without rules, none of them named
    part1: every one completes and its data is merged in turn. *)
Lemma run_from_plain (names : list string) index results context :
  "part1" ∉ names →
  ∃ calls,
    run_from index (as_child ∘ plain <$> names) results context =
      (Return (results ++ ((fun n => completed (Mapping (simple_data n))) <$> names)),
       foldl (fun c n => simple_data n ∪ c) context names, calls).
Proof.
  revert index results context.
  induction names as [|n names IH]; intros index results context Hnames.
  - exists []. simpl. rewrite app_nil_r. reflexivity.
  - assert (Hn : String.eqb n "part1" = false).
    { apply String.eqb_neq. intros ->. apply Hnames. left. }
    assert (Hrest : "part1" ∉ names) by (intros Hin; apply Hnames; right; exact Hin).
    destruct (IH (S index) (results ++ [completed (Mapping (simple_data n))])
                 (simple_data n ∪ context) Hrest) as [calls Hrun].
    exists (ChildInvoked index context :: calls).
    rewrite fmap_cons.
    rewrite (run_from_step _ _ _ _ _ (completed (Mapping (simple_data n))) context
               (simple_data n)); [| exact Hn | reflexivity | reflexivity].
    rewrite Hrun, <- app_assoc. reflexivity.
Qed.

End CompositeRuns.

(** X4: whatever its children do, a composite invokes them strictly in list
    order and without gaps: the children invoked are the first [m] of the
    list for some [m].  When the result is [COMPLETED], every child has
    been invoked and the data holds one result per child. *)
Theorem composite_runs_children_in_order
    (self : SimpleCompositeInstruction.t) (context : Context) :
  ∃ m,
    m ≤ length (SimpleCompositeInstruction.instructions self) ∧
    invoked (trace (execute self context)) = seq 0 m ∧
    (∀ result,
       returned (execute self context) = Return result → status result = COMPLETED →
       m = length (SimpleCompositeInstruction.instructions self) ∧
       ∃ results, data result = Sequence results ∧
                  length results = length (SimpleCompositeInstruction.instructions self)).
Proof.
  destruct (SimpleCompositeInstruction.run_from 0
              (SimpleCompositeInstruction.instructions self) [] context)
    as [[outcome context'] calls] eqn:Hrun.
  destruct (run_from_prefix _ _ _ _ _ _ _ Hrun) as (m & Hle & Hcalls & _ & Hall).
  rewrite (execute_composite self context _ _ _ Hrun). cbn [returned trace].
  rewrite invoked_hook.
  exists m. split; [exact Hle |]. split; [exact Hcalls |].
  intros result Hret Hstatus. destruct outcome as [results|e].
  - injection Hret as <-. split; [apply Hall; eauto |].
    exists results. split; [reflexivity |].
    destruct (run_from_invoked _ _ _ _ _ _ _ Hrun) as [_ Hlen]. exact Hlen.
  - injection Hret as <-. discriminate.
Qed.

(** X5: a composite of [SimpleInstruction]s without rules, none named part1,
    completes with one result per child, in order.  Each child's data is
    merged over what was there, so where the children write the same key
    the later child wins: the context ends with the name of the last
    child. *)
Theorem composite_of_plain_children (names : list string) (context : Context) :
  "part1" ∉ names →
  returned (execute (composite_of (as_child ∘ plain <$> names)) context) =
    Return (completed (Sequence ((fun n => completed (Mapping (simple_data n))) <$> names))) ∧
  context_after (execute (composite_of (as_child ∘ plain <$> names)) context) =
    foldl (fun c n => simple_data n ∪ c) context names ∧
  (∀ n, last names = Some n →
     context_after (execute (composite_of (as_child ∘ plain <$> names)) context) !! "name"
       = Some (VStr n)) ∧
  (∀ key, key ≠ "name" → key ≠ "result" →
     context_after (execute (composite_of (as_child ∘ plain <$> names)) context) !! key
       = context !! key).
Proof.
  intros Hnames.
  destruct (run_from_plain names 0 [] context Hnames) as [calls Hrun].
  rewrite (execute_composite (composite_of (as_child ∘ plain <$> names)) context _ _ _ Hrun).
  cbn [returned context_after].
  split; [reflexivity |]. split; [reflexivity |]. split.
  - intros n Hlast. apply last_Some in Hlast as [names' ->].
    rewrite foldl_app. simpl. apply lookup_union_Some_l.
    unfold simple_data. apply lookup_insert_eq.
  - intros key Hname Hresult. clear Hnames Hrun. revert context.
    induction names as [|n names IH]; intros context; simpl; [reflexivity |].
    rewrite IH. rewrite lookup_union_r; [reflexivity |].
    unfold simple_data. rewrite lookup_insert_ne by congruence.
    apply lookup_singleton_ne. congruence.
Qed.

Lemma composite_of_plain_children_witness :
  returned (execute (composite_of (as_child ∘ plain <$> ["load"; "clean"])) sample_context) =
    Return (completed (Sequence ((fun n => completed (Mapping (simple_data n)))
                                   <$> ["load"; "clean"]))) ∧
  context_after (execute (composite_of (as_child ∘ plain <$> ["load"; "clean"])) sample_context) =
    foldl (fun c n => simple_data n ∪ c) sample_context ["load"; "clean"] ∧
  (∀ n, last ["load"; "clean"] = Some n →
     context_after (execute (composite_of (as_child ∘ plain <$> ["load"; "clean"]))
                      sample_context) !! "name" = Some (VStr n)) ∧
  (∀ key, key ≠ "name" → key ≠ "result" →
     context_after (execute (composite_of (as_child ∘ plain <$> ["load"; "clean"]))
                      sample_context) !! key = sample_context !! key).
Proof.
  apply (composite_of_plain_children ["load"; "clean"] sample_context).
  intros Hin. repeat (apply elem_of_cons in Hin as [Hin | Hin]; [discriminate |]).
  inversion Hin.
Defined.

(** X6: a composite cannot hold a composite that does work.  When a child is
    itself a [SimpleCompositeInstruction] with at least one child and it
    completes, its data is a list of results, the merge into the context
    raises, and the outer composite fails at that child: the error starts
    with the child's name and no later child is invoked. *)
Theorem nested_composite_fails_outer
    (outer inner : SimpleCompositeInstruction.t) (context : Context)
    (before after : list Child) (results : list InstructionResult)
    (reached : Context) (calls : Trace) (completion : InstructionResult) :
  SimpleCompositeInstruction.instructions outer = before ++ as_child inner :: after →
  SimpleCompositeInstruction.run_from 0 before [] context = (Return results, reached, calls) →
  SimpleCompositeInstruction.name inner ≠ "part1" →
  SimpleCompositeInstruction.instructions inner ≠ [] →
  returned (execute inner reached) = Return completion →
  status completion = COMPLETED →
  ∃ detail,
    returned (execute outer context) =
      Return (failed ("Error in " +:+ SimpleCompositeInstruction.name inner +:+ ": " +:+ detail)) ∧
    invoked (trace (execute outer context)) = seq 0 (S (length before)).
Proof.
  intros Hsplit Hbefore Hname Hnonempty Hinner Hstatus.
  destruct (SimpleCompositeInstruction.run_from 0
              (SimpleCompositeInstruction.instructions inner) [] reached)
    as [[outcome context1] inner_calls] eqn:Hrun.
  assert (Hexec : execute inner reached =
    {| returned := Return (match outcome with
                           | Return all => completed (Sequence all)
                           | Raise e => failed (str e)
                           end);
       context_after := context1; trace := HookInvoked :: inner_calls |})
    by exact (execute_composite inner reached _ _ _ Hrun).
  rewrite Hexec in Hinner. cbn [returned] in Hinner. injection Hinner as <-.
  destruct outcome as [all|e]; [| discriminate].
  destruct (run_from_invoked _ _ _ _ _ _ _ Hrun) as [_ Hlen]. simpl in Hlen.
  destruct all as [|first others].
  { destruct (SimpleCompositeInstruction.instructions inner); [congruence | discriminate]. }
  destruct (run_from_invoked _ _ _ _ _ _ _ Hbefore) as [Hcalls _].
  pose proof (run_from_app before (as_child inner :: after) _ _ _ _ _ _ Hbefore) as Happ.
  rewrite <- Hsplit in Happ.
  cbn [SimpleCompositeInstruction.run_from] in Happ.
  apply String.eqb_neq in Hname.
  change (child_name (as_child inner)) with (SimpleCompositeInstruction.name inner) in Happ.
  rewrite Hname in Happ.
  change (child_execute (as_child inner) reached)
    with (returned (execute inner reached), context_after (execute inner reached)) in Happ.
  rewrite Hexec in Happ. cbn [returned context_after data completed dict_update] in Happ.
  rewrite (execute_composite outer context _ _ _ Happ). cbn [returned trace].
  exists "cannot convert dictionary update sequence element #0 to a sequence".
  split; [reflexivity |].
  rewrite invoked_hook, invoked_app, Hcalls, invoked_child, Nat.add_0_l.
  rewrite seq_S. reflexivity.
Qed.

Lemma nested_composite_fails_outer_witness :
  ∃ detail,
    returned (execute (composite_of [as_child (plain "a");
                                     as_child (composite_of [as_child (plain "b")]);
                                     as_child (plain "c")]) sample_context) =
      Return (failed ("Error in " +:+
                      SimpleCompositeInstruction.name (composite_of [as_child (plain "b")])
                      +:+ ": " +:+ detail)) ∧
    invoked (trace (execute (composite_of [as_child (plain "a");
                                           as_child (composite_of [as_child (plain "b")]);
                                           as_child (plain "c")]) sample_context)) =
      seq 0 (S (length [as_child (plain "a")])).
Proof.
  apply (nested_composite_fails_outer
           (composite_of [as_child (plain "a");
                          as_child (composite_of [as_child (plain "b")]);
                          as_child (plain "c")])
           (composite_of [as_child (plain "b")]) sample_context
           [as_child (plain "a")] [as_child (plain "c")]
           [completed (Mapping (simple_data "a"))]
           (simple_data "a" ∪ sample_context)
           [ChildInvoked 0 sample_context]
           (completed (Sequence [completed (Mapping (simple_data "b"))]))).
  - reflexivity.
  - reflexivity.
  - discriminate.
  - discriminate.
  - reflexivity.
  - reflexivity.
Defined.



(** ** ConditionalInstructionTest *)

Section ConditionalRuns.

Local Abbreviation select_from := ConditionalInstructionTest.select_from.

Lemma conditions_evaluated_condition index (events : Trace) :
  conditions_evaluated (ConditionEvaluated index :: events) =
    index :: conditions_evaluated events.
Proof. reflexivity. Qed.

(** The conditions evaluated are an initial segment of the registered ones,
    and the only branch that can have run is that of the last condition
    evaluated. *)
Lemma select_from_shape (conditions : list (Condition * Child)) index context :
  ∀ outcome context' calls,
    select_from index conditions context = (outcome, context', calls) →
    ∃ m, m ≤ length conditions ∧
         conditions_evaluated calls = seq index m ∧
         (invoked calls = [] ∨ (0 < m ∧ invoked calls = [index + m - 1])).
Proof.
  revert index.
  induction conditions as [|[condition instruction] rest IH];
    intros index outcome context' calls Hrun; simpl in Hrun.
  - injection Hrun as <- <- <-. exists 0. split; [lia |]. split; [reflexivity | left; reflexivity].
  - destruct (condition context) as [[|]|e].
    + exists 1. split; [simpl; lia |].
      destruct (child_execute instruction context) as [[result|e] context1];
        injection Hrun as <- <- <-;
        (split; [reflexivity | right; split; [lia |]]);
        rewrite Nat.add_sub; reflexivity.
    + destruct (select_from (S index) rest context) as [[outcome0 context1] calls0] eqn:Hrest.
      injection Hrun as <- <- <-.
      destruct (IH _ _ _ _ Hrest) as (m & Hle & Hevaluated & Hinvoked).
      exists (S m). split; [simpl; lia |].
      split; [rewrite conditions_evaluated_condition, Hevaluated; reflexivity |].
      destruct Hinvoked as [Hnone | [Hpos Hone]].
      * left. exact Hnone.
      * right. split; [lia |].
        change (invoked (ConditionEvaluated index :: calls0)) with (invoked calls0).
        rewrite Hone. f_equal. lia.
    + injection Hrun as <- <- <-. exists 1. split; [simpl; lia |].
      split; [reflexivity | left; reflexivity].
Qed.

(** Once a condition has matched or raised, pairs registered later are never
    looked at. *)
Lemma select_from_decided (conditions more : list (Condition * Child)) index context :
  Exists (fun pair : Condition * Child => pair.1 context ≠ Return false) conditions →
  select_from index (conditions ++ more) context = select_from index conditions context.
Proof.
  revert index. induction conditions as [|[condition instruction] rest IH];
    intros index Hdecided.
  - inversion Hdecided.
  - simpl. destruct (condition context) as [[|]|e] eqn:Hcondition; try reflexivity.
    inversion Hdecided as [? ? Hhere | ? ? Hlater]; subst.
    + simpl in Hhere. congruence.
    + rewrite (IH (S index) Hlater). reflexivity.
Qed.

End ConditionalRuns.

(** X8: whatever the conditions do, a conditional instruction executes at
    most one branch per call.  The conditions evaluated are the first [m]
    registered ones, in order, and a branch that ran is the one paired with
    the last condition evaluated. *)
Theorem conditional_runs_at_most_one_branch
    (self : ConditionalInstructionTest.t) (context : Context) :
  length (invoked (trace (execute self context))) ≤ 1 ∧
  ∃ m, m ≤ length (ConditionalInstructionTest.conditions self) ∧
       conditions_evaluated (trace (execute self context)) = seq 0 m ∧
       (∀ index, index ∈ invoked (trace (execute self context)) → S index = m).
Proof.
  destruct (ConditionalInstructionTest.select_from 0
              (ConditionalInstructionTest.conditions self) context)
    as [[outcome context'] calls] eqn:Hrun.
  destruct (select_from_shape _ _ _ _ _ _ Hrun) as (m & Hle & Hevaluated & Hinvoked).
  rewrite (execute_conditional self context _ _ _ Hrun). cbn [trace].
  change (invoked (HookInvoked :: calls)) with (invoked calls).
  change (conditions_evaluated (HookInvoked :: calls)) with (conditions_evaluated calls).
  split.
  - destruct Hinvoked as [-> | [_ ->]]; simpl; lia.
  - exists m. split; [exact Hle |]. split; [exact Hevaluated |].
    intros index Hin. destruct Hinvoked as [Hnone | [Hpos Hone]].
    + rewrite Hnone in Hin. inversion Hin.
    + rewrite Hone in Hin. apply list_elem_of_singleton in Hin. lia.
Qed.

(** X9: a conditional instruction does not look at the status of the branch
    it ran.  When the selected branch returns a [FAILED] result, the
    conditional's own result is [COMPLETED], with [None] under the key
    result and without the branch's error. *)
Theorem conditional_hides_branch_failure
    (self : ConditionalInstructionTest.t) (context : Context)
    (before after : list (Condition * Child)) (condition : Condition) (instruction : Child)
    (result : InstructionResult) (context1 : Context) :
  ConditionalInstructionTest.conditions self = before ++ (condition, instruction) :: after →
  Forall (fun pair : Condition * Child => pair.1 context = Return false) before →
  condition context = Return true →
  child_execute instruction context = (Return result, context1) →
  status result = FAILED →
  well_formed result →
  returned (execute self context) = Return (completed (Mapping {[ "result" := VNone ]})) ∧
  context_after (execute self context) = context1.
Proof.
  intros Hsplit Hbefore Htrue Hexec Hstatus Hwf.
  unfold well_formed in Hwf. rewrite Hstatus in Hwf. destruct Hwf as [Hdata _].
  pose proof (select_from_skip before ((condition, instruction) :: after) 0 context Hbefore)
    as Hrun.
  rewrite <- Hsplit in Hrun. simpl in Hrun. rewrite Htrue, Hexec, Hdata in Hrun.
  rewrite (execute_conditional self context _ _ _ Hrun). split; reflexivity.
Qed.

Lemma conditional_hides_branch_failure_witness :
  returned (execute (conditional_of [(false_condition, as_child (plain "then"));
                                     (true_condition, as_child rejecting_child)])
              sample_context) =
    Return (completed (Mapping {[ "result" := VNone ]})) ∧
  context_after (execute (conditional_of [(false_condition, as_child (plain "then"));
                                          (true_condition, as_child rejecting_child)])
                   sample_context) = sample_context.
Proof.
  apply (conditional_hides_branch_failure
           (conditional_of [(false_condition, as_child (plain "then"));
                            (true_condition, as_child rejecting_child)])
           sample_context
           [(false_condition, as_child (plain "then"))] []
           true_condition (as_child rejecting_child)
           (failed "Failed validation rule") sample_context).
  - reflexivity.
  - constructor; [reflexivity | constructor].
  - reflexivity.
  - reflexivity.
  - reflexivity.
  - split; [reflexivity | simpl; eauto].
Defined.

(** X10: [add_condition] registers a pair behind the ones already there, and
    earlier registrations win.  If some registered condition matches or
    raises on a context, adding a pair changes nothing about the call; if
    every registered condition returns false, the added pair alone decides
    the result. *)
Theorem add_condition_registers_last
    (self : ConditionalInstructionTest.t) (condition : Condition) (instruction : Child)
    (context : Context) :
  (Exists (fun pair : Condition * Child => pair.1 context ≠ Return false)
          (ConditionalInstructionTest.conditions self) →
   execute (ConditionalInstructionTest.add_condition self condition instruction) context =
     execute self context) ∧
  (Forall (fun pair : Condition * Child => pair.1 context = Return false)
          (ConditionalInstructionTest.conditions self) →
   returned (execute (ConditionalInstructionTest.add_condition self condition instruction)
               context) =
     Return (match condition context with
             | Raise e => failed (str e)
             | Return false => failed "No matching condition found"
             | Return true =>
                 match child_execute instruction context with
                 | (Return result, _) =>
                     completed (Mapping {[ "result" := data_value (data result) ]})
                 | (Raise e, _) => failed (str e)
                 end
             end)).
Proof.
  split.
  - intros Hdecided.
    destruct (ConditionalInstructionTest.select_from 0
                (ConditionalInstructionTest.conditions self) context)
      as [[outcome context'] calls] eqn:Hrun.
    rewrite (execute_conditional self context _ _ _ Hrun).
    apply execute_conditional.
    cbn [ConditionalInstructionTest.add_condition ConditionalInstructionTest.conditions].
    rewrite (select_from_decided _ _ 0 context Hdecided). exact Hrun.
  - intros Hnone.
    pose proof (select_from_skip (ConditionalInstructionTest.conditions self)
                  [(condition, instruction)] 0 context Hnone) as Hrun.
    simpl in Hrun.
    destruct (condition context) as [[|]|e].
    + destruct (child_execute instruction context) as [[result|e] context1];
        rewrite (execute_conditional
                   (ConditionalInstructionTest.add_condition self condition instruction)
                   context _ _ _ Hrun); reflexivity.
    + rewrite (execute_conditional
                 (ConditionalInstructionTest.add_condition self condition instruction)
                 context _ _ _ Hrun); reflexivity.
    + rewrite (execute_conditional
                 (ConditionalInstructionTest.add_condition self condition instruction)
                 context _ _ _ Hrun); reflexivity.
Qed.

Lemma add_condition_registers_last_witness :
  execute (ConditionalInstructionTest.add_condition branch_fixture
             true_condition (as_child (plain "late"))) sample_context =
    execute branch_fixture sample_context ∧
  returned (execute (ConditionalInstructionTest.add_condition no_match_fixture
                       true_condition (as_child (plain "late"))) sample_context) =
    Return (match true_condition sample_context with
            | Raise e => failed (str e)
            | Return false => failed "No matching condition found"
            | Return true =>
                match child_execute (as_child (plain "late")) sample_context with
                | (Return result, _) =>
                    completed (Mapping {[ "result" := data_value (data result) ]})
                | (Raise e, _) => failed (str e)
                end
            end).
Proof.
  split.
  - apply (proj1 (add_condition_registers_last branch_fixture true_condition
                    (as_child (plain "late")) sample_context)).
    apply Exists_cons_tl. apply Exists_cons_hd. discriminate.
  - apply (proj2 (add_condition_registers_last no_match_fixture true_condition
                    (as_child (plain "late")) sample_context)).
    constructor; [reflexivity |]. constructor; [reflexivity | constructor].
Defined.

(** ** SimpleParallelInstruction *)

(** An instruction that goes through [execute] never raises when it is
    invoked as a child. *)
Lemma as_child_returns {T : Type} `{AdvancedInstruction T} (self : T) :
  returns (as_child self).
Proof.
  intros context. destruct (execute_returns self context) as (result & Hret & _).
  exists result. exact Hret.
Qed.

Lemma failed_results_nil_iff (entries : list (Raises InstructionResult)) :
  SimpleParallelInstruction.failed_results entries = [] ↔ ¬ ∃ e, Raise e ∈ entries.
Proof.
  split.
  - intros Hnil (e & Hin).
    assert (Hmsg : str e ∈ SimpleParallelInstruction.failed_results entries)
      by (apply failed_results_elem; eauto).
    rewrite Hnil in Hmsg. inversion Hmsg.
  - intros Hnone.
    destruct (SimpleParallelInstruction.failed_results entries) as [|message others] eqn:Hfailed;
      [reflexivity |].
    exfalso. apply Hnone.
    assert (Hmsg : message ∈ SimpleParallelInstruction.failed_results entries)
      by (rewrite Hfailed; left).
    apply failed_results_elem in Hmsg as (e & Hin & _). eauto.
Qed.




(** * The agent factory *)

Section PyDictFacts.

Context {V : Type}.
Implicit Types (d : list (string * V)) (key : string) (value : V).

Lemma get_set d key value other :
  PyDict.get (PyDict.set d key value) other =
    if String.eqb key other then Some value else PyDict.get d other.
Proof.
  induction d as [|[k v] rest IH]; simpl.
  - destruct (String.eqb key other); reflexivity.
  - destruct (String.eqb k key) eqn:Hk; simpl.
    + apply String.eqb_eq in Hk as ->. destruct (String.eqb key other); reflexivity.
    + destruct (String.eqb k other) eqn:Hother; [| exact IH].
      apply String.eqb_eq in Hother as ->.
      rewrite String.eqb_sym, Hk. reflexivity.
Qed.

Lemma get_del d key other :
  PyDict.get (PyDict.del d key) other =
    if String.eqb key other then None else PyDict.get d other.
Proof.
  induction d as [|[k v] rest IH]; simpl.
  - destruct (String.eqb key other); reflexivity.
  - destruct (String.eqb k key) eqn:Hk; simpl.
    + apply String.eqb_eq in Hk as ->. rewrite IH.
      destruct (String.eqb key other); reflexivity.
    + destruct (String.eqb k other) eqn:Hother; [| exact IH].
      apply String.eqb_eq in Hother as ->.
      rewrite String.eqb_sym, Hk. reflexivity.
Qed.

Lemma del_absent d key : PyDict.get d key = None → PyDict.del d key = d.
Proof.
  induction d as [|[k v] rest IH]; simpl; [reflexivity |].
  destruct (String.eqb k key); [discriminate |]. intros Hrest. rewrite (IH Hrest). reflexivity.
Qed.

Lemma keys_cons d k v : PyDict.keys ((k, v) :: d) = k :: PyDict.keys d.
Proof. reflexivity. Qed.

Lemma elem_of_keys d key : key ∈ PyDict.keys d ↔ is_Some (PyDict.get d key).
Proof.
  induction d as [|[k v] rest IH]; cbn [PyDict.get].
  - split; [intros Hin; inversion Hin | intros [? ?]; discriminate].
  - rewrite keys_cons, elem_of_cons, IH. destruct (String.eqb k key) eqn:Hk.
    + apply String.eqb_eq in Hk as ->. split; [eauto | left; reflexivity].
    + apply String.eqb_neq in Hk. split; [intros [-> | Hrest]; [congruence | exact Hrest] | eauto].
Qed.

Lemma keys_set d key value :
  PyDict.keys (PyDict.set d key value) =
    match PyDict.get d key with
    | Some _ => PyDict.keys d
    | None => PyDict.keys d ++ [key]
    end.
Proof.
  induction d as [|[k v] rest IH]; cbn [PyDict.get PyDict.set]; [reflexivity |].
  destruct (String.eqb k key) eqn:Hk; [reflexivity |].
  rewrite !keys_cons, IH. destruct (PyDict.get rest key); reflexivity.
Qed.

Lemma keys_del_sublist d key : sublist (PyDict.keys (PyDict.del d key)) (PyDict.keys d).
Proof.
  induction d as [|[k v] rest IH]; cbn [PyDict.del]; [constructor |].
  destruct (String.eqb k key); rewrite ?keys_cons;
    [apply sublist_cons; exact IH | apply sublist_skip; exact IH].
Qed.

Lemma keys_del d key :
  PyDict.keys (PyDict.del d key) = filter (fun k => k ≠ key) (PyDict.keys d).
Proof.
  induction d as [|[k v] rest IH]; cbn [PyDict.del]; [reflexivity |].
  rewrite keys_cons, filter_cons. destruct (String.eqb k key) eqn:Hk.
  - apply String.eqb_eq in Hk as ->. rewrite decide_False by (intros Hne; congruence).
    exact IH.
  - apply String.eqb_neq in Hk. rewrite decide_True by exact Hk.
    rewrite keys_cons, IH. reflexivity.
Qed.

Lemma set_del_fresh d key value :
  PyDict.get d key = None → PyDict.del (PyDict.set d key value) key = d.
Proof.
  induction d as [|[k v] rest IH]; simpl.
  - intros _. rewrite String.eqb_refl. reflexivity.
  - destruct (String.eqb k key) eqn:Hk; [discriminate |].
    intros Hrest. simpl. rewrite Hk, (IH Hrest). reflexivity.
Qed.

End PyDictFacts.

Section FactoryFacts.

Context {Agent Config : Type} `{AgentClass Agent Config}.
Implicit Types (self : AgentFactory.t Agent) (config : Config).

(** X13: the agent that [create_agent] returns is the one built from the
    configuration, and it is registered in the factory under its own id:
    [get_agent] finds it there, every other id answers as before, and the
    factory's other fields are untouched. *)
Theorem create_agent_then_get self config :
  let '(agent, factory) := AgentFactory.create_agent self config in
  agent = agent_new config ∧
  AgentFactory.get_agent factory (agent_id agent) = Some agent ∧
  (∀ other, other ≠ agent_id agent →
     AgentFactory.get_agent factory other = AgentFactory.get_agent self other) ∧
  AgentFactory.id factory = AgentFactory.id self ∧
  AgentFactory.name factory = AgentFactory.name self ∧
  AgentFactory.description factory = AgentFactory.description self ∧
  AgentFactory.metadata factory = AgentFactory.metadata self.
Proof.
  unfold AgentFactory.create_agent, AgentFactory.get_agent. cbn [AgentFactory.agents].
  split; [reflexivity |]. split.
  - rewrite get_set, String.eqb_refl. reflexivity.
  - split; [| repeat split].
    intros other Hother. rewrite get_set.
    destruct (String.eqb (agent_id (agent_new config)) other) eqn:Heq; [| reflexivity].
    apply String.eqb_eq in Heq. congruence.
Qed.

(** X14: after [remove_agent] the id is gone and every other id answers as
    before; removing an id that is not registered leaves the factory as it
    was, without an error. *)
Theorem remove_agent_then_get self (removed : string) :
  AgentFactory.get_agent (AgentFactory.remove_agent self removed) removed = None ∧
  (∀ other, other ≠ removed →
     AgentFactory.get_agent (AgentFactory.remove_agent self removed) other =
       AgentFactory.get_agent self other) ∧
  (AgentFactory.get_agent self removed = None →
     AgentFactory.remove_agent self removed = self).
Proof.
  unfold AgentFactory.remove_agent, AgentFactory.get_agent.
  destruct (PyDict.get (AgentFactory.agents self) removed) as [agent|] eqn:Hget;
    cbn [AgentFactory.agents].
  - split; [rewrite get_del, String.eqb_refl; reflexivity |]. split; [| discriminate].
    intros other Hother. rewrite get_del.
    destruct (String.eqb removed other) eqn:Heq; [| reflexivity].
    apply String.eqb_eq in Heq. congruence.
  - split; [exact Hget |]. split; [reflexivity | reflexivity].
Qed.

(** X15: [list_agents] lists exactly the ids that [get_agent] finds.  An id
    that is already registered keeps its place in the listing when
    [create_agent] overwrites it, and a new id is listed last. *)
Theorem list_agents_after_create self config :
  (∀ key, key ∈ AgentFactory.list_agents self ↔
          is_Some (AgentFactory.get_agent self key)) ∧
  AgentFactory.list_agents (AgentFactory.create_agent self config).2 =
    match AgentFactory.get_agent self (agent_id (agent_new config)) with
    | Some _ => AgentFactory.list_agents self
    | None => AgentFactory.list_agents self ++ [agent_id (agent_new config)]
    end.
Proof.
  unfold AgentFactory.list_agents, AgentFactory.get_agent, AgentFactory.create_agent.
  cbn [snd AgentFactory.agents].
  split; [intros key; apply elem_of_keys | apply keys_set].
Qed.

(** X16: the ids a factory lists stay distinct: starting from a factory
    whose listing has no repetition, neither [create_agent] nor
    [remove_agent] introduces one, and the listing after a removal is the
    old listing without the removed id, in the old order. *)
Theorem list_agents_stay_distinct self config (removed : string) :
  NoDup (AgentFactory.list_agents self) →
  NoDup (AgentFactory.list_agents (AgentFactory.create_agent self config).2) ∧
  NoDup (AgentFactory.list_agents (AgentFactory.remove_agent self removed)) ∧
  AgentFactory.list_agents (AgentFactory.remove_agent self removed) =
    filter (fun key => key ≠ removed) (AgentFactory.list_agents self) ∧
  removed ∉ AgentFactory.list_agents (AgentFactory.remove_agent self removed).
Proof.
  intros Hdistinct.
  assert (Hlisting : AgentFactory.list_agents (AgentFactory.remove_agent self removed) =
                     filter (fun key => key ≠ removed) (AgentFactory.list_agents self)).
  { unfold AgentFactory.remove_agent, AgentFactory.list_agents.
    destruct (PyDict.get (AgentFactory.agents self) removed) eqn:Hget;
      cbn [AgentFactory.agents]; [apply keys_del |].
    rewrite <- (del_absent _ _ Hget) at 1. apply keys_del. }
  split; [| split; [| split]].
  - unfold AgentFactory.list_agents, AgentFactory.create_agent in *.
    cbn [snd AgentFactory.agents]. rewrite keys_set.
    destruct (PyDict.get (AgentFactory.agents self) (agent_id (agent_new config))) eqn:Hget;
      [exact Hdistinct |].
    apply NoDup_app. split; [exact Hdistinct |]. split; [| apply NoDup_singleton].
    intros key Hin Hlast. apply list_elem_of_singleton in Hlast as ->.
    apply elem_of_keys in Hin. rewrite Hget in Hin. destruct Hin; discriminate.
  - rewrite Hlisting. apply NoDup_filter. exact Hdistinct.
  - exact Hlisting.
  - rewrite Hlisting. intros Hin. apply list_elem_of_filter in Hin as [Hne _]. congruence.
Qed.

(** X17: registering an agent under an id the factory does not know and then
    removing that id gives back the factory as it was, listing order
    included. *)
Theorem create_then_remove self config :
  AgentFactory.get_agent self (agent_id (agent_new config)) = None →
  AgentFactory.remove_agent (AgentFactory.create_agent self config).2
    (agent_id (agent_new config)) = self.
Proof.
  unfold AgentFactory.get_agent, AgentFactory.remove_agent, AgentFactory.create_agent.
  cbn [snd AgentFactory.agents AgentFactory.id AgentFactory.name AgentFactory.description
       AgentFactory.metadata].
  intros Hfresh. rewrite get_set, String.eqb_refl, (set_del_fresh _ _ _ Hfresh).
  destruct self. reflexivity.
Qed.

(** X18: [from_dict] reads back what [to_dict] wrote.  For a factory whose
    agents survive their own [to_dict] followed by [from_dict], the factory
    rebuilt from its dict is the factory itself: same id, name,
    description and metadata, the same agents under the same ids in the
    same order; the default id is not used. *)
Theorem from_dict_to_dict self (fresh : string) :
  Forall (fun entry : string * Agent => agent_from_dict (agent_to_dict entry.2) = entry.2)
         (AgentFactory.agents self) →
  AgentFactory.from_dict fresh (AgentFactory.to_dict self) = Some self.
Proof.
  intros Hagents. destruct self as [id name description agents metadata].
  unfold AgentFactory.from_dict, AgentFactory.to_dict.
  cbn [AgentFactory.id AgentFactory.name AgentFactory.description AgentFactory.agents
       AgentFactory.metadata PyDict.get String.eqb Ascii.eqb Bool.eqb] in *.
  assert (Hround : prod_map (fun k => k) agent_from_dict <$>
                     (prod_map (fun k => k) agent_to_dict <$> agents) = agents).
  { induction Hagents as [|[k a] rest Hfirst _ IH]; [reflexivity |].
    rewrite !fmap_cons. cbn [prod_map fst snd] in *. rewrite Hfirst, IH. reflexivity. }
  rewrite Hround. destruct description; reflexivity.
Qed.

End FactoryFacts.

Section FactoryWitnesses.

Local Existing Instance sample_agent_class.

Lemma list_agents_stay_distinct_witness :
  NoDup (AgentFactory.list_agents
           (AgentFactory.create_agent sample_factory
              {| sample_id := "a3"; sample_name := "editor" |}).2) ∧
  NoDup (AgentFactory.list_agents (AgentFactory.remove_agent sample_factory "a1")) ∧
  AgentFactory.list_agents (AgentFactory.remove_agent sample_factory "a1") =
    filter (fun key => key ≠ "a1") (AgentFactory.list_agents sample_factory) ∧
  "a1" ∉ AgentFactory.list_agents (AgentFactory.remove_agent sample_factory "a1").
Proof.
  apply (list_agents_stay_distinct sample_factory
           {| sample_id := "a3"; sample_name := "editor" |} "a1").
  repeat constructor; intros Hin;
    repeat (apply elem_of_cons in Hin as [Hin | Hin]; [discriminate |]); inversion Hin.
Defined.

Lemma create_then_remove_witness :
  AgentFactory.remove_agent
    (AgentFactory.create_agent sample_factory
       {| sample_id := "a3"; sample_name := "editor" |}).2
    (agent_id (agent_new {| sample_id := "a3"; sample_name := "editor" |})) = sample_factory.
Proof.
  apply (create_then_remove sample_factory {| sample_id := "a3"; sample_name := "editor" |}).
  reflexivity.
Defined.

Lemma from_dict_to_dict_witness :
  AgentFactory.from_dict "unused" (AgentFactory.to_dict sample_factory) = Some sample_factory.
Proof.
  apply (from_dict_to_dict sample_factory "unused").
  constructor; [reflexivity |]. constructor; [reflexivity | constructor].
Defined.

End FactoryWitnesses.

(** * Transformation strategies *)

(** X19: a strategy reports what its configuration says under name,
    description and version, whatever the value is ([None] included, which
    is reported as [None] and not replaced), and falls back to the class
    name, the empty string and 1.0.0 for a key that is missing; no other
    key of the configuration has any effect on the three. *)
Theorem strategy_defaults (class_name : string) (config : gmap string Value) :
  (∀ value,
     TransformationStrategy.get_name
       (TransformationStrategy.__init__ class_name (<["name" := value]> config)) = value ∧
     TransformationStrategy.get_description
       (TransformationStrategy.__init__ class_name (<["description" := value]> config)) = value ∧
     TransformationStrategy.get_version
       (TransformationStrategy.__init__ class_name (<["version" := value]> config)) = value) ∧
  TransformationStrategy.get_name
    (TransformationStrategy.__init__ class_name (delete "name" config)) = VStr class_name ∧
  TransformationStrategy.get_description
    (TransformationStrategy.__init__ class_name (delete "description" config)) = VStr "" ∧
  TransformationStrategy.get_version
    (TransformationStrategy.__init__ class_name (delete "version" config)) = VStr "1.0.0" ∧
  (∀ key value, key ≠ "name" → key ≠ "description" → key ≠ "version" →
     let changed := TransformationStrategy.__init__ class_name (<[key := value]> config) in
     let given := TransformationStrategy.__init__ class_name config in
     TransformationStrategy.get_name changed = TransformationStrategy.get_name given ∧
     TransformationStrategy.get_description changed =
       TransformationStrategy.get_description given ∧
     TransformationStrategy.get_version changed = TransformationStrategy.get_version given).
Proof.
  unfold TransformationStrategy.get_name, TransformationStrategy.get_description,
    TransformationStrategy.get_version, TransformationStrategy.__init__,
    TransformationStrategy.config_get.
  cbn [TransformationStrategy.name TransformationStrategy.description
       TransformationStrategy.version].
  split; [| split; [| split; [| split]]].
  - intros value. rewrite !lookup_insert_eq. repeat split.
  - rewrite lookup_delete_eq. reflexivity.
  - rewrite lookup_delete_eq. reflexivity.
  - rewrite lookup_delete_eq. reflexivity.
  - intros key value Hname Hdescription Hversion. cbv zeta.
    cbn [TransformationStrategy.name TransformationStrategy.description
         TransformationStrategy.version].
    rewrite !lookup_insert_ne by congruence. repeat split.
Qed.
